(** * sync.py: pairing LiDAR frames with camera images by file name

  A shallow embedding of the functions of [sync.py] and of the library
  calls they rest on ([os.path], [os.walk], [numpy.loadtxt],
  [zipfile.ZipFile], [pandas.HDFStore], [cv2.imread]), followed by the
  properties of the synchronizer, the file locators, the frame loader and
  the two exporters.

  Conventions.  A Python [str] holding a path or a file name is a [string]
  (a sequence of bytes; comparing byte-wise is comparing code points on
  UTF-8 text).  A [dict] with string keys is a [gmap string _], a [set] of
  strings a [gset string].  A call that can raise returns a [result]; a
  loop that writes to a buffer and can raise runs in the monad [M], which
  keeps the buffer written before the exception.  [numpy.loadtxt] follows
  its reference implementation in Python, with the defaults the call
  leaves (comments [#], [ndmin=0]). *)

From Stdlib Require Import ZArith QArith Ascii String List Sorted Permutation.
From Stdlib Require Import DecimalString.
From stdpp Require Import base option list sorting gmap strings fin_maps fin_sets.

Local Open Scope string_scope.
Local Open Scope list_scope.

(** ** Strings as Python uses them *)

Module PyStr.

(** [s.rfind(c)] for a one-character [c]: the highest index of [c] in
    [s], or [-1]. *)
Fixpoint rfind_from (c : ascii) (s : string) (i last : Z) : Z :=
  match s with
  | EmptyString => last
  | String a s' => rfind_from c s' (i + 1) (if Ascii.eqb a c then i else last)
  end.

Definition rfind (c : ascii) (s : string) : Z := rfind_from c s 0 (-1).

(** The slices [s[i:]], [s[:i]] and [s[i:j]] for indices that are not
    negative (the only ones [posixpath] produces). *)
Fixpoint drop (n : nat) (s : string) : string :=
  match n, s with
  | O, _ => s
  | S n', String _ s' => drop n' s'
  | S _, EmptyString => EmptyString
  end.

Fixpoint take (n : nat) (s : string) : string :=
  match n, s with
  | S n', String a s' => String a (take n' s')
  | _, _ => EmptyString
  end.

Definition slice_from (i : Z) (s : string) : string := drop (Z.to_nat i) s.
Definition slice_to (i : Z) (s : string) : string := take (Z.to_nat i) s.
Definition slice (i j : Z) (s : string) : string :=
  take (Z.to_nat (j - i)) (drop (Z.to_nat i) s).

(** [s.startswith(p)] is [String.prefix p s]; [p in s] and
    [s.endswith(p)] follow. *)
Definition startswith (s p : string) : bool := String.prefix p s.

Fixpoint contains (p s : string) : bool :=
  String.prefix p s ||
  match s with
  | EmptyString => false
  | String _ s' => contains p s'
  end.

Fixpoint endswith (s p : string) : bool :=
  String.eqb s p ||
  match s with
  | EmptyString => false
  | String _ s' => endswith s' p
  end.

(** [s.lower()] on ASCII letters. *)
Definition lower_ascii (a : ascii) : ascii :=
  let n := N_of_ascii a in
  if ((65 <=? n) && (n <=? 90))%N then ascii_of_N (n + 32) else a.

Fixpoint lower (s : string) : string :=
  match s with
  | EmptyString => EmptyString
  | String a s' => String (lower_ascii a) (lower s')
  end.

(** [s.split(sep)] for a one-character separator: every occurrence of
    [sep] ends a field, so two adjacent separators enclose an empty field. *)
Fixpoint split (sep : ascii) (s : string) : list string :=
  match s with
  | EmptyString => [EmptyString]
  | String a s' =>
      if Ascii.eqb a sep then EmptyString :: split sep s'
      else match split sep s' with
           | w :: ws => String a w :: ws
           | [] => [String a EmptyString]
           end
  end.

(** [s < t] on strings. *)
Definition lt (s t : string) : Prop := String.ltb s t = true.

(** [str(n)] for a natural number, as an f-string prints it. *)
Definition of_nat (n : nat) : string := NilZero.string_of_uint (Nat.to_uint n).

(** The single quote, the double quote and the backslash. *)
Definition single_quote : ascii := ascii_of_N 39.
Definition double_quote : ascii := ascii_of_N 34.
Definition backslash : ascii := ascii_of_N 92.

Definition has_char (c : ascii) (s : string) : bool :=
  existsb (Ascii.eqb c) (list_ascii_of_string s).

(** A lower-case hexadecimal digit. *)
Definition hex_digit (n : N) : ascii :=
  if (n <? 10)%N then ascii_of_N (48 + n) else ascii_of_N (87 + n).

(** [repr(s)] on ASCII text ([unicode_repr] of CPython): the text stands
    between single quotes, or between double quotes when it holds a single
    quote and no double one; the quote in use and the backslash get a
    backslash before them; tab, line feed and carriage return are written
    with the letters t, n and r after a backslash, and any other control
    character with x and its two hexadecimal digits after a backslash.
    The bytes of a character beyond ASCII are copied, as [repr] copies the
    printable characters; it escapes the others, which is not modelled. *)
Definition repr_char (quote a : ascii) : string :=
  let n := N_of_ascii a in
  if Ascii.eqb a quote || Ascii.eqb a backslash
  then String backslash (String a EmptyString)
  else if (n =? 9)%N then String backslash "t"
  else if (n =? 10)%N then String backslash "n"
  else if (n =? 13)%N then String backslash "r"
  else if (n <? 32)%N || (n =? 127)%N
  then String backslash
         (String "x" (String (hex_digit (n / 16))
                             (String (hex_digit (n mod 16)) EmptyString)))
  else String a EmptyString.

Fixpoint repr_body (quote : ascii) (s : string) : string :=
  match s with
  | EmptyString => String quote EmptyString
  | String a s' => (repr_char quote a ++ repr_body quote s')%string
  end.

Definition repr (s : string) : string :=
  let quote :=
    if has_char single_quote s && negb (has_char double_quote s)
    then double_quote else single_quote in
  String quote (repr_body quote s).

End PyStr.

(** ** [os.path] (the POSIX flavour) *)

Module OsPath.

(** [posixpath.basename]: [i = p.rfind('/') + 1; return p[i:]]. *)
Definition basename (p : string) : string :=
  let i := (PyStr.rfind "/" p + 1)%Z in
  PyStr.slice_from i p.

(** [genericpath._splitext] with [sep = '/'], no [altsep] and
    [extsep = '.']: the extension starts at the last dot of the last
    path component, unless that component has only dots before it. *)
Definition splitext (p : string) : string * string :=
  let sepIndex := PyStr.rfind "/" p in
  let dotIndex := PyStr.rfind "." p in
  if (sepIndex <? dotIndex)%Z
  then
    let leading := PyStr.slice (sepIndex + 1)%Z dotIndex p in
    if forallb (fun a => Ascii.eqb a ".") (list_ascii_of_string leading)
    then (p, EmptyString)
    else (PyStr.slice_to dotIndex p, PyStr.slice_from dotIndex p)
  else (p, EmptyString).

(** [posixpath.join(a, p)] for two components. *)
Definition join (a p : string) : string :=
  if PyStr.startswith p "/" then p
  else if String.eqb a "" || PyStr.endswith a "/" then a +:+ p
  else a +:+ "/" +:+ p.

End OsPath.

(** ** The synchronizer *)

(** The Frame Identifier of a path:
    [os.path.splitext(os.path.basename(f))[0]]. *)
Definition frame_id (f : string) : string :=
  fst (OsPath.splitext (OsPath.basename f)).

(** The comprehension [{frame_id(f): f for f in files}]: the entries are
    stored in list order, a later one replacing an earlier one with the same
    key. *)
Definition base_names (files : list string) : gmap string string :=
  foldl (fun d f => <[frame_id f := f]> d) ∅ files.

(** [sorted(xs)] on strings. The result of a sort on a total order is
    determined by its input, so the algorithm chosen here (stdpp's merge
    sort) is immaterial. *)
Definition sorted (xs : list string) : list string := merge_sort String.le xs.

(** [synchronize_data]. A subscript [d[key]] raises [KeyError] on a missing
    key, which is [None] here. *)
Definition synchronize_data (lidar_files image_files : list string)
  : option (list (string * string)) :=
  let lidar_base_names := base_names lidar_files in
  let image_base_names := base_names image_files in
  let common_keys :=
    sorted (elements (dom lidar_base_names ∩ dom image_base_names)) in
  mapM (fun key =>
          l ← lidar_base_names !! key;
          i ← image_base_names !! key;
          Some (l, i))
       common_keys.

(** The key set of a list of paths, as the specification speaks of it. *)
Definition keys (files : list string) : gset string :=
  list_to_set (frame_id <$> files).

(** ** The file locators *)

(** A directory: the names of its files and its named sub-directories, in
    the order [os.scandir] lists them. *)
#[warnings="-register-all"]
Inductive dir_tree : Type :=
| Dir (files : list string) (subdirs : list (string * dir_tree)).

(** [os.walk(top)], top-down: the triple of a directory comes before the
    triples of its sub-directories, each walked under
    [os.path.join(top, name)]. *)
Fixpoint walk (top : string) (t : dir_tree)
  : list (string * list string * list string) :=
  match t with
  | Dir files subdirs =>
      (top, map fst subdirs, files)
      :: flat_map (fun '(name, sub) => walk (OsPath.join top name) sub) subdirs
  end.

(** The test of [find_velodyne_txt_files] on a directory path and on a
    file name. *)
Definition velodyne_root (root : string) : bool :=
  PyStr.contains "velodyne_points" root && PyStr.contains "data" root.

Definition velodyne_file (file : string) : bool :=
  PyStr.endswith file ".txt" && negb (PyStr.startswith file "._").

Definition find_velodyne_txt_files (base_dir : string) (t : dir_tree)
  : list string :=
  let txt_files :=
    flat_map (fun '(root, dirs, files) =>
                if velodyne_root root
                then map (OsPath.join root) (List.filter velodyne_file files)
                else [])
             (walk base_dir t) in
  sorted txt_files.

(** The same for [find_image_files]; [endswith] takes a tuple of
    suffixes. *)
Definition image_root (root : string) : bool :=
  PyStr.contains "image_02" root && PyStr.contains "data" root.

Definition image_file (file : string) : bool :=
  existsb (PyStr.endswith (PyStr.lower file)) [".png"; ".jpg"; ".jpeg"]
  && negb (PyStr.startswith file "._").

Definition find_image_files (base_dir : string) (t : dir_tree)
  : list string :=
  let img_files :=
    flat_map (fun '(root, dirs, files) =>
                if image_root root
                then map (OsPath.join root) (List.filter image_file files)
                else [])
             (walk base_dir t) in
  sorted img_files.

(** The words of the specification for these tests: a string occurs in
    another, begins it, or ends it. *)
Definition is_substring (p s : string) : Prop :=
  ∃ pre post, s = pre +:+ p +:+ post.
Definition has_prefix (p s : string) : Prop := ∃ post, s = p +:+ post.
Definition has_suffix (p s : string) : Prop := ∃ pre, s = pre +:+ p.

(** ** Exceptions *)

(** The exceptions the modelled calls raise, each with its message. *)
Inductive exn : Type :=
| FileNotFoundError (msg : string)
| ValueError (msg : string)
| AttributeError (msg : string)
| TypeError (msg : string)
| OSError (msg : string)
| BadZipFile (msg : string).

(** [str(e)]. *)
Definition exn_str (e : exn) : string :=
  match e with
  | FileNotFoundError msg | ValueError msg | AttributeError msg
  | TypeError msg | OSError msg | BadZipFile msg => msg
  end.

(** The outcome of a call: a value or a raised exception. *)
Inductive result (A : Type) : Type :=
| Ok (a : A)
| Raise (e : exn).
Arguments Ok {A} a.
Arguments Raise {A} e.

Definition is_Raise {A} (r : result A) : Prop := ∃ e, r = Raise e.

(** A computation that updates a buffer of type [S] and may raise. When it
    raises, the buffer keeps what was written before the exception. *)
Definition M (S A : Type) : Type := S → S * result A.

Definition M_ret {S A} (a : A) : M S A := fun s => (s, Ok a).

Definition M_bind {S A B} (c : M S A) (k : A → M S B) : M S B :=
  fun s =>
    match c s with
    | (s', Ok a) => k a s'
    | (s', Raise e) => (s', Raise e)
    end.

Definition lift {S A} (r : result A) : M S A := fun s => (s, r).

#[global] Instance M_mret {S} : MRet (M S) := fun A => @M_ret S A.
#[global] Instance M_mbind {S} : MBind (M S) :=
  fun A B (k : A → M S B) (c : M S A) => M_bind c k.

(** ** Arrays and tables *)

(** A [numpy] array of at most two dimensions. *)
Inductive ndarray (A : Type) : Type :=
| Array0 (x : A)
| Array1 (xs : list A)
| Array2 (ncols : nat) (rows : list (list A)).
Arguments Array0 {A} x.
Arguments Array1 {A} xs.
Arguments Array2 {A} ncols rows.

(** [a.shape]. *)
Definition shape {A} (a : ndarray A) : list nat :=
  match a with
  | Array0 _ => []
  | Array1 xs => [length xs]
  | Array2 ncols rows => [length rows; ncols]
  end.

(** A [pandas.DataFrame]: its column labels and its rows. *)
Record frame (A : Type) : Type := Frame {
  columns : list string;
  rows : list (list A)
}.
Arguments Frame {A} columns rows.
Arguments columns {A} f.
Arguments rows {A} f.

(** [pd.DataFrame(data, columns=cols)] on an array. A two-dimensional array
    needs as many columns as labels; a one-dimensional array is one column;
    anything else is refused. *)
Definition DataFrame {A} (data : ndarray A) (cols : list string)
  : result (frame A) :=
  match data with
  | Array2 ncols rows =>
      if Nat.eqb ncols (length cols) then Ok (Frame cols rows)
      else Raise (ValueError "Shape of passed values does not match the columns")
  | Array1 xs =>
      if Nat.eqb 1 (length cols) then Ok (Frame cols (map (fun x => [x]) xs))
      else Raise (ValueError "Shape of passed values does not match the columns")
  | Array0 _ => Raise (ValueError "Must pass 2-d input")
  end.

(** An image as [cv2.imread] returns it: an array of shape
    [(height, width, 3)] of bytes, held as its row-major buffer. *)
Record image : Type := Image {
  height : nat;
  width : nat;
  pixels : list N;
  pixels_len : length pixels = (height * width * 3)%nat
}.



(** Cutting a buffer into rows of three. *)
Fixpoint chunk3 {A} (xs : list A) : list (list A) :=
  match xs with
  | a :: b :: c :: rest => [a; b; c] :: chunk3 rest
  | _ => []
  end.

(** [image_data.reshape(-1, 3)]. [cv2.imread] returns [None] for a file it
    cannot read, and [None] has no [reshape]. *)
Definition reshape_rows3 (image_data : option image) : result (ndarray N) :=
  match image_data with
  | None => Raise (AttributeError "'NoneType' object has no attribute 'reshape'")
  | Some img =>
      if Nat.eqb (length (pixels img) mod 3) 0
      then Ok (Array2 3 (chunk3 (pixels img)))
      else Raise (ValueError "cannot reshape array")
  end.

(** [image_data[:, :, ::-1]]: the same pixels, each with its three values
    in reverse order. The result is given as (height, width, pixels). *)
Definition reverse_channels (image_data : option image)
  : result (nat * nat * list (list N)) :=
  match image_data with
  | None => Raise (TypeError "'NoneType' object is not subscriptable")
  | Some img => Ok (height img, width img, @rev N <$> chunk3 (pixels img))
  end.

(** ** The frame loader *)

Section Loader.

(** [float(s)], the conversion [numpy.loadtxt] applies to every field:
    [None] when it raises [ValueError]. Its values are the elements of
    [F]. *)
Context {F : Type} (floatconv : string → option F).

(** The file system: the content of every regular file, by path. *)
Context (fs : gmap string string).

(** The lines a text-mode file yields, without their terminators; a line
    ends at LF, at CR or at CR LF. *)
Fixpoint text_lines (s : string) : list string :=
  match s with
  | EmptyString => []
  | String a s' =>
      if Ascii.eqb a "010" then EmptyString :: text_lines s'
      else if Ascii.eqb a "013" then
        match s' with
        | String b s'' =>
            if Ascii.eqb b "010" then EmptyString :: text_lines s''
            else EmptyString :: text_lines s'
        | EmptyString => [EmptyString]
        end
      else match text_lines s' with
           | l :: ls => String a l :: ls
           | [] => [String a EmptyString]
           end
  end.

(** The part of a line before its first [#]. *)
Fixpoint before_comment (line : string) : string :=
  match line with
  | EmptyString => EmptyString
  | String a line' =>
      if Ascii.eqb a "#" then EmptyString else String a (before_comment line')
  end.

(** [split_line] of [numpy.loadtxt] with [comments='#'] and
    [delimiter=' ']: the comment goes, and what is left is split at every
    space; an empty line has no fields. *)
Definition split_line (line : string) : list string :=
  let line := before_comment line in
  if String.eqb line "" then [] else PyStr.split " " line.

(** The conversion of the fields of one row. *)
Fixpoint convert_row (vals : list string) : result (list F) :=
  match vals with
  | [] => Ok []
  | val :: vals' =>
      match floatconv val with
      | None => Raise (ValueError ("could not convert string to float: " +:+ val))
      | Some x =>
          match convert_row vals' with
          | Ok xs => Ok (x :: xs)
          | Raise e => Raise e
          end
      end
  end.

(** The fields of the first line that has any: they fix the number of
    columns. *)
Fixpoint first_vals (lines : list string) : list string :=
  match lines with
  | [] => []
  | line :: rest =>
      match split_line line with
      | [] => first_vals rest
      | vals => vals
      end
  end.

(** The reading loop: a line without fields is skipped, a line whose
    number of fields is not [ncols] raises, and so does a field that is not
    a number. *)
Fixpoint read_rows (ncols : nat) (lines : list string) : result (list (list F)) :=
  match lines with
  | [] => Ok []
  | line :: rest =>
      let vals := split_line line in
      if Nat.eqb (length vals) 0 then read_rows ncols rest
      else if negb (Nat.eqb (length vals) ncols)
      then Raise (ValueError "Wrong number of columns")
      else
        match convert_row vals with
        | Raise e => Raise e
        | Ok items =>
            match read_rows ncols rest with
            | Ok X => Ok (items :: X)
            | Raise e => Raise e
            end
        end
  end.

(** [numpy.squeeze] on the rows read, as [loadtxt] applies it with its
    default [ndmin=0]: every axis of length one is dropped. *)
Definition squeeze (ncols : nat) (X : list (list F)) : ndarray F :=
  match X with
  | [] => Array1 []
  | [row] =>
      match row with
      | [x] => Array0 x
      | _ => Array1 row
      end
  | _ => if Nat.eqb ncols 1 then Array1 (concat X) else Array2 ncols X
  end.

(** [np.loadtxt(f, delimiter=' ')] on the text of a file. *)
Definition loadtxt (content : string) : result (ndarray F) :=
  let lines := text_lines content in
  let ncols := length (first_vals lines) in
  match read_rows ncols lines with
  | Ok X => Ok (squeeze ncols X)
  | Raise e => Raise e
  end.

(** [load_lidar_from_txt]. *)
Definition load_lidar_from_txt (file_path : string) : result (ndarray F) :=
  match fs !! file_path with
  | None => Raise (FileNotFoundError (file_path +:+ " not found."))
  | Some content => loadtxt content
  end.

(** The rows of fields [loadtxt] reads: those of the lines that have
    any. *)
Definition rows_of (lines : list string) : list (list string) :=
  List.filter (fun vals => negb (Nat.eqb (length vals) 0))
              (map split_line lines).

Definition data_rows (content : string) : list (list string) :=
  rows_of (text_lines content).

(** A line as the specification wants it: split at the spaces, it has
    exactly four fields, each a number. *)
Definition four_numeric_fields (line : string) : bool :=
  let fields := PyStr.split " " line in
  Nat.eqb (length fields) 4
  && forallb (fun v => bool_decide (is_Some (floatconv v))) fields.

End Loader.

(** ** The exporters *)

(** A ZIP archive being written: its entries (name, content) in the order
    of writing. [ZipFile.write] appends an entry whatever names are already
    there (a repeated name only draws a warning). *)
Definition archive : Type := list (string * string).

(** Reading an archive back. [ZipFile.extractall] writes the entries in
    order, so that of two entries with one name the later is the file that
    stays; the names are relative to the directory extracted to. *)
Definition extractall (zf : archive) : gmap string string :=
  foldl (fun files '(name, content) => <[name := content]> files) ∅ zf.

(** The number of entries of an archive stored under a name. *)
Definition entries_named (name : string) (zf : archive) : nat :=
  length (List.filter (fun '(n, _) => String.eqb n name) zf).

(** What a download button can offer. *)
Inductive artifact (F : Type) : Type :=
| ZipBuffer (zf : archive)
| H5Buffer (st : gmap string (frame F + frame N)).
Arguments ZipBuffer {F} zf.
Arguments H5Buffer {F} st.

(** The elements the export handler shows. *)
Inductive widget (F : Type) : Type :=
| st_error (msg : string)
| st_download_button (label : string) (data : artifact F)
                     (file_name mime : string).
Arguments st_error {F} msg.
Arguments st_download_button {F} label data file_name mime.

(** The files the pairs refer to, in the order the exporters visit them:
    for each pair its point-cloud file, then its image file. *)
Definition referenced (synced_data : list (string * string)) : list string :=
  flat_map (fun '(lidar_file, image_file) => [lidar_file; image_file])
           synced_data.

Section Exporter.

Context {F : Type} (floatconv : string → option F).
Context (fs : gmap string string).

(** The decoder behind [cv2.imread], on the bytes of a file: [None] when
    they are not an image it reads. *)
Context (imdecode : string → option image).

(** What the constructor [pd.HDFStore] does when the [with] statement
    calls it: it opens the store, or it raises. The handler is described
    for either outcome; the call the script makes is [HDFStore_BytesIO]
    below. *)
Context (HDFStore_open : result unit).

(** [cv2.imread(path)]: [None] when the file is missing or not an image. *)
Definition imread (path : string) : option image :=
  content ← fs !! path; imdecode content.

(** [zf.write(filename, arcname)]: the content of the file goes into the
    archive under [arcname]. The files written here are regular files and
    [arcname] is a base name, which [ZipInfo.from_file] keeps as it is. A
    name [fs] does not hold is a file that does not exist: [os.stat]
    raises [FileNotFoundError], whose text ends in [repr(filename)]. *)
Definition zf_write (filename arcname : string) : M archive unit :=
  fun zf =>
    match fs !! filename with
    | Some content => ((zf ++ [(arcname, content)])%list, Ok tt)
    | None =>
        (zf, Raise (FileNotFoundError
                      ("[Errno 2] No such file or directory: "
                       +:+ PyStr.repr filename)))
    end.

(** The entry [zf.write] makes of a file: its base name and its
    content. *)
Definition entry_of (f : string) (e : string * string) : Prop :=
  e.1 = OsPath.basename f ∧ fs !! f = Some e.2.

(** The loop of the [.zip] branch. *)
Fixpoint export_zip_pairs (synced_data : list (string * string))
  : M archive unit :=
  match synced_data with
  | [] => mret tt
  | (lidar_file, image_file) :: rest =>
      zf_write lidar_file (OsPath.basename lidar_file);;
      zf_write image_file (OsPath.basename image_file);;
      export_zip_pairs rest
  end.

(** The [with zipfile.ZipFile(zip_buffer, "w")] block: the buffer it
    leaves, and whether it raised. *)
Definition export_zip (synced_data : list (string * string))
  : archive * result unit :=
  export_zip_pairs synced_data [].

(** The store of an [HDFStore]: a table per key. [put] replaces the table
    of a key that is there already. *)
Definition store : Type := gmap string (frame F + frame N).

Definition put (key : string) (value : frame F + frame N) : M store unit :=
  fun st => (<[key := value]> st, Ok tt).

(** The keys [f"pair_{i}/lidar"] and [f"pair_{i}/image"] of the group
    [pair_{i}]. *)
Definition pair_group (i : nat) : string := "pair_" +:+ PyStr.of_nat i.
Definition lidar_key (i : nat) : string := pair_group i +:+ "/lidar".
Definition image_key (i : nat) : string := pair_group i +:+ "/image".

(** The loop of the [.h5] branch, [i] counting the pairs as [enumerate]
    does. *)
Fixpoint export_h5_pairs (i : nat) (synced_data : list (string * string))
  : M store unit :=
  match synced_data with
  | [] => mret tt
  | (lidar_file, image_file) :: rest =>
      lidar_data ← lift (load_lidar_from_txt floatconv fs lidar_file);
      let image_data := imread image_file in
      lidar_df ← lift (DataFrame lidar_data ["x"; "y"; "z"; "intensity"]);
      put (lidar_key i) (inl lidar_df);;
      flat ← lift (reshape_rows3 image_data);
      image_df ← lift (DataFrame flat ["R"; "G"; "B"]);
      put (image_key i) (inr image_df);;
      export_h5_pairs (S i) rest
  end.

(** The [with pd.HDFStore(h5_buffer, mode="w")] block. *)
Definition export_h5 (synced_data : list (string * string))
  : store * result unit :=
  match HDFStore_open with
  | Raise e => (∅, Raise e)
  | Ok _ => export_h5_pairs 0 synced_data ∅
  end.

(** A pair the structured export can write: its point-cloud file loads to
    a table of four columns and its image file decodes. *)
Definition exportable (pr : string * string) : Prop :=
  (∃ X, load_lidar_from_txt floatconv fs pr.1 = Ok (Array2 4 X))
  ∧ is_Some (imread pr.2).

(** The handler of the Export button, as the list of elements it shows. *)
Definition export_button (export_format : string)
           (synced_data : list (string * string)) : list (widget F) :=
  if bool_decide (synced_data = [])
  then [st_error "No synchronized data available to export."]
  else if String.eqb export_format ".zip" then
    match export_zip synced_data with
    | (zip_buffer, Ok _) =>
        [st_download_button "Download ZIP" (ZipBuffer zip_buffer)
                            "synced_data.zip" "application/zip"]
    | (_, Raise e) => [st_error ("Error exporting data: " +:+ exn_str e)]
    end
  else if String.eqb export_format ".h5" then
    match export_h5 synced_data with
    | (h5_buffer, Ok _) =>
        [st_download_button "Download H5" (H5Buffer h5_buffer)
                            "synced_data.h5" "application/octet-stream"]
    | (_, Raise e) => [st_error ("Error exporting data: " +:+ exn_str e)]
    end
  else [].


End Exporter.

(** The call of line 171, [pd.HDFStore(h5_buffer, mode="w")] with
    [h5_buffer = io.BytesIO()]: the constructor takes the path of a file,
    and on a buffer the opening of the file raises [TypeError] ([msg] is
    the text the library gives it). No store is opened. *)
Definition HDFStore_BytesIO (msg : string) : result unit :=
  Raise (TypeError msg).

(** ** Decimal literals *)

(** The value of a plain decimal literal (an optional sign, digits, and
    optionally a point and more digits), as the rational it denotes. On
    the literals of the examples below, whose values are binary fractions,
    this is the number [float] returns. *)
Module DecimalLit.

Definition digit (a : ascii) : option Z :=
  let n := N_of_ascii a in
  if ((48 <=? n) && (n <=? 57))%N then Some (Z.of_N n - 48)%Z else None.

Fixpoint digits_from (acc : Z) (s : string) : option Z :=
  match s with
  | EmptyString => Some acc
  | String a s' => d ← digit a; digits_from (acc * 10 + d)%Z s'
  end.

Definition number (s : string) : option Z :=
  match s with
  | EmptyString => None
  | _ => digits_from 0%Z s
  end.

Definition unsigned (s : string) : option Q :=
  match PyStr.split "." s with
  | [i] => n ← number i; Some (inject_Z n)
  | [i; f] =>
      n ← number i; m ← number f;
      let scale := (10 ^ Z.of_nat (String.length f))%Z in
      Some (Qred (Qmake (n * scale + m) (Z.to_pos scale)))
  | _ => None
  end.

Definition float (s : string) : option Q :=
  match s with
  | String "-" s' => Qopp <$> unsigned s'
  | String "+" s' => unsigned s'
  | _ => unsigned s
  end.

End DecimalLit.

(** ** The synchronization step of the script *)

(** The messages of the step. *)
Inductive notice : Type :=
| st_success (msg : string)
| st_warning (msg : string).

(** What ends the script in this step: an exception that leaves
    [unzip_to_folder], which nothing catches, or the [KeyError] of a lookup
    in [synchronize_data]. *)
Inductive uncaught : Type :=
| Unzip (e : exn)
| KeyError.

Section AfterUpload.

(** The library side of [unzip_to_folder]: for the file [zip_path], the
    bytes written to it and the directory [out_dir], the tree of the
    directory once [zipfile.ZipFile(zip_path, 'r').extractall(out_dir)] has
    run (with the file [zip_path] and with what earlier runs left there),
    or the exception raised, [zipfile.BadZipFile] when the bytes are no
    archive. *)
Context (ZipFile_extractall : string → string → string → result dir_tree).

(** [unzip_to_folder(uploaded_file, out_dir)]; an uploaded file is its
    bytes. *)
Definition unzip_to_folder (uploaded_file out_dir : string)
  : result dir_tree :=
  let zip_path := OsPath.join out_dir "data.zip" in
  ZipFile_extractall zip_path uploaded_file out_dir.

(** The block "After Upload". An upload is [None] when nothing was
    uploaded. The result is [synced_data] with the messages shown, or what
    ended the script before any message. *)
Definition after_upload (uploaded_lidar_zip uploaded_image_zip : option string)
  : uncaught + (list (string * string) * list notice) :=
  let lidar_temp_dir := "lidar_temp" in
  let image_temp_dir := "image_temp" in
  let located (uploaded : option string) (out_dir : string)
              (find : string → dir_tree → list string)
    : result (list string) :=
    match uploaded with
    | Some uploaded_file =>
        match unzip_to_folder uploaded_file out_dir with
        | Ok staged => Ok (find out_dir staged)
        | Raise e => Raise e
        end
    | None => Ok []
    end in
  match located uploaded_lidar_zip lidar_temp_dir find_velodyne_txt_files with
  | Raise e => inl (Unzip e)
  | Ok lidar_files =>
      match located uploaded_image_zip image_temp_dir find_image_files with
      | Raise e => inl (Unzip e)
      | Ok image_files =>
          if negb (bool_decide (lidar_files = []))
             && negb (bool_decide (image_files = []))
          then
            match synchronize_data lidar_files image_files with
            | Some synced_data =>
                inr (synced_data,
                     [st_success ("Found "
                                  +:+ PyStr.of_nat (length synced_data)
                                  +:+ " synchronized pairs.")])
            | None => inl KeyError
            end
          else if bool_decide (is_Some uploaded_lidar_zip)
                  || bool_decide (is_Some uploaded_image_zip)
          then inr ([], [st_warning
                           "Please upload both LiDAR and image data to synchronize."])
          else inr ([], [])
      end
  end.

(** The staging directory of an upload: the tree [unzip_to_folder] leaves
    for it, none without an upload. *)
Definition staged_as (uploaded : option string) (out_dir : string)
           (staged : option dir_tree) : Prop :=
  match uploaded, staged with
  | Some uploaded_file, Some t => unzip_to_folder uploaded_file out_dir = Ok t
  | None, None => True
  | _, _ => False
  end.

End AfterUpload.

(** ** The view of a synchronized pair *)

Module View.

(** The elements the view shows. *)
Inductive element (F : Type) : Type :=
| st_write (text : string)
| st_dataframe (df : frame F)
| st_pyplot (xs ys zs : list F)
| st_image (height width : nat) (pixels : list (list N)) (caption : string)
| st_error (msg : string).
Arguments st_write {F} text.
Arguments st_dataframe {F} df.
Arguments st_pyplot {F} xs ys zs.
Arguments st_image {F} height width pixels caption.
Arguments st_error {F} msg.

(** What the view path can raise: an exception of the calls modelled
    above, or the [IndexError] of an index an array does not have. *)
Inductive raised : Type :=
| Lib (e : exn)
| IndexError (msg : string).

Definition raised_str (r : raised) : string :=
  match r with
  | Lib e => exn_str e
  | IndexError msg => msg
  end.

(** A computation that shows elements and may raise; what was shown
    before the exception stays shown. *)
Definition V (F A : Type) : Type :=
  list (element F) → list (element F) * (raised + A).

#[global] Instance V_mret {F} : MRet (V F) := fun A a shown => (shown, inr a).
#[global] Instance V_mbind {F} : MBind (V F) :=
  fun A B (k : A → V F B) (c : V F A) shown =>
    match c shown with
    | (shown', inr a) => k a shown'
    | (shown', inl r) => (shown', inl r)
    end.

Definition show {F} (e : element F) : V F unit :=
  fun shown => (shown ++ [e], inr tt).

Definition call {F A} (r : result A) : V F A :=
  fun shown =>
    match r with
    | Ok a => (shown, inr a)
    | Raise e => (shown, inl (Lib e))
    end.

Definition index {F A} (r : raised + A) : V F A := fun shown => (shown, r).

(** [a[:n]]: the first [n] items along the first axis. *)
Definition first_rows {A} (n : nat) (a : ndarray A) : raised + ndarray A :=
  match a with
  | Array0 _ => inl (IndexError "too many indices for array")
  | Array1 xs => inr (Array1 (take n xs))
  | Array2 ncols rows => inr (Array2 ncols (take n rows))
  end.

(** [a[:, k]]: column [k] of a two-dimensional array. *)
Definition get_column {A} (k : nat) (a : ndarray A) : raised + list A :=
  match a with
  | Array2 ncols rows =>
      if Nat.ltb k ncols then
        match mapM (fun row : list A => row !! k) rows with
        | Some col => inr col
        | None => inl (IndexError "index out of bounds for axis 1")
        end
      else inl (IndexError "index out of bounds for axis 1")
  | _ => inl (IndexError "too many indices for array")
  end.

Section Handler.

Context {F : Type} (floatconv : string → option F).
Context (fs : gmap string string) (imdecode : string → option image).

(** [plot_lidar_3d]: the scatter of the first three columns. *)
Definition plot_lidar_3d (lidar_data : ndarray F) : V F unit :=
  xs ← index (get_column 0 lidar_data);
  ys ← index (get_column 1 lidar_data);
  zs ← index (get_column 2 lidar_data);
  show (st_pyplot xs ys zs).

(** The body of the Visualize button, with its [try] and [except]. *)
Definition visualize_button (selected_pair : string * string)
  : list (element F) :=
  let body : V F unit :=
    lidar_data ← call (load_lidar_from_txt floatconv fs selected_pair.1);
    show (st_write ("LiDAR File: " +:+ OsPath.basename selected_pair.1));;
    let columns := ["x"; "y"; "z"; "intensity"] in
    preview ← index (first_rows 5 lidar_data);
    df_preview ← call (DataFrame preview columns);
    show (st_write "First 5 LiDAR points:");;
    show (st_dataframe df_preview);;
    plot_lidar_3d lidar_data;;
    image ← call (reverse_channels (imread fs imdecode selected_pair.2));
    show (st_write ("Image File: " +:+ OsPath.basename selected_pair.2));;
    show (st_image image.1.1 image.1.2 image.2 "Synchronized Image") in
  match body [] with
  | (shown, inr _) => shown
  | (shown, inl e) =>
      shown ++ [st_error ("Error visualizing synchronized data: "
                          +:+ raised_str e)]
  end.

End Handler.

End View.

(** ** Concrete inputs *)

Definition LF : string := String "010" EmptyString.

(** A point-cloud file of one line. *)
Definition one_line_text : string := "1.0 2.0 3.0 0.5".

(** A file of two lines of three fields. *)
Definition three_column_text : string := "1 2 3" +:+ LF +:+ "4 5 6".

(** A file of two lines of four fields. *)
Definition two_point_text : string :=
  "1.0 2.0 3.0 0.5" +:+ LF +:+ "4 5 6 0.25" +:+ LF.

(** Two pairs whose point-cloud files have one base name in two
    directories, and the files they refer to. *)
Definition clash_pairs : list (string * string) :=
  [("a/f.txt", "a/f.png"); ("b/f.txt", "b/g.png")].

Definition clash_fs : gmap string string :=
  {["a/f.txt" := "A"; "a/f.png" := "P"; "b/f.txt" := "B"; "b/g.png" := "Q"]}.

(** An image of one row of two pixels, a decoder that reads it from the
    bytes [px], and a file system with one point-cloud file and one image
    file. *)
Definition tiny_image : image :=
  {| height := 1; width := 2;
     pixels := [10; 20; 30; 40; 50; 60]%N;
     pixels_len := eq_refl |}.

Definition tiny_decode (bytes : string) : option image :=
  if String.eqb bytes "px" then Some tiny_image else None.

Definition demo_fs : gmap string string :=
  {["l/0000000001.txt" := two_point_text; "i/0000000001.png" := "px"]}.

Definition demo_pairs : list (string * string) :=
  [("l/0000000001.txt", "i/0000000001.png")].

(** A pair whose image file is missing. *)
Definition broken_pairs : list (string * string) :=
  [("a/f.txt", "a/missing.png")].


(** ** Notions for the further properties *)

(** The names in a directory tree are those of directory entries: none
    has a slash. *)
Fixpoint names_ok (t : dir_tree) : Prop :=
  match t with
  | Dir files subdirs =>
      Forall (fun file => Forall (fun a => a ≠ "/"%char)
                                 (list_ascii_of_string file)) files
      ∧ (fix all_ok (l : list (string * dir_tree)) : Prop :=
           match l with
           | [] => True
           | (name, sub) :: l' =>
               Forall (fun a => a ≠ "/"%char) (list_ascii_of_string name)
               ∧ names_ok sub ∧ all_ok l'
           end) subdirs
  end.


(** A character does not occur in a string. *)
Definition absent (c : ascii) (s : string) : Prop :=
  Forall (fun a => a ≠ c) (list_ascii_of_string s).


(** Two staging directories after extraction, and the files in them. *)
Definition demo_lidar_tree : dir_tree :=
  Dir ["data.zip"]
      [("velodyne_points",
        Dir ["timestamps.txt"] [("data", Dir ["2.txt"; "1.txt"] [])])].

Definition demo_image_tree : dir_tree :=
  Dir ["data.zip"]
      [("image_02", Dir [] [("data", Dir ["1.png"; "2.PNG"; "3.png"] [])])].

(** An extraction that knows two archives by their bytes and leaves the
    trees above for them; any other upload is no archive. *)
Definition demo_extractall (zip_path content out_dir : string)
  : result dir_tree :=
  if String.eqb content "lidar archive" then Ok demo_lidar_tree
  else if String.eqb content "image archive" then Ok demo_image_tree
  else Raise (BadZipFile "File is not a zip file").

Definition staged_fs : gmap string string :=
  {["lidar_temp/velodyne_points/data/1.txt" := two_point_text;
    "lidar_temp/velodyne_points/data/2.txt" := one_line_text;
    "image_temp/image_02/data/1.png" := "px";
    "image_temp/image_02/data/2.PNG" := "px"]}.




(** * Properties *)

(** ** The order on strings *)

Lemma lt_of_le_ne (s t : string) : String.le s t → s ≠ t → PyStr.lt s t.
Proof.
  unfold String.le, PyStr.lt, String.leb, String.ltb. intros Hle Hne.
  destruct (String.compare s t) eqn:Hc; try done.
  by apply String.compare_eq_iff in Hc.
Qed.

Lemma lt_irrefl (s : string) : ¬ PyStr.lt s s.
Proof.
  unfold PyStr.lt, String.ltb. intros H.
  pose proof (String.compare_antisym s s) as Ha.
  destruct (String.compare s s); simpl in Ha; congruence.
Qed.

Lemma Sorted_le_NoDup_lt (l : list string) :
  Sorted String.le l → NoDup l → Sorted PyStr.lt l.
Proof.
  intros Hs%Sorted_StronglySorted Hnd; [|apply _].
  apply StronglySorted_Sorted.
  induction Hs as [|x l Hl IH Hx]; [constructor|].
  apply NoDup_cons in Hnd as [Hnotin Hnd].
  constructor; [by apply IH|].
  apply Forall_forall. intros y Hy.
  apply lt_of_le_ne.
  - by eapply Forall_forall in Hx.
  - intros ->. by apply Hnotin.
Qed.

Lemma sorted_Sorted (l : list string) : Sorted String.le (sorted l).
Proof. apply Sorted_merge_sort. apply _. Qed.

Lemma sorted_Permutation (l : list string) : sorted l ≡ₚ l.
Proof. apply merge_sort_Permutation. Qed.

(** ** The key → path mappings *)

Lemma base_names_snoc (l : list string) (f : string) :
  base_names (l ++ [f]) = <[frame_id f := f]> (base_names l).
Proof. unfold base_names. by rewrite foldl_app. Qed.

Lemma base_names_lookup (l : list string) (k p : string) :
  base_names l !! k = Some p → frame_id p = k ∧ p ∈ l.
Proof.
  induction l as [|f l IH] using rev_ind; [done|].
  rewrite base_names_snoc. intros H.
  destruct (decide (frame_id f = k)) as [<-|Hne].
  - rewrite lookup_insert_eq in H. injection H as <-. split; [done|].
    apply elem_of_app. right. by apply list_elem_of_singleton.
  - rewrite lookup_insert_ne in H by done.
    destruct (IH H) as [? ?]. split; [done|]. apply elem_of_app. by left.
Qed.

Lemma dom_base_names (l : list string) : dom (base_names l) = keys l.
Proof.
  unfold keys. induction l as [|f l IH] using rev_ind; [done|].
  rewrite base_names_snoc, dom_insert_L, IH, fmap_app, list_to_set_app_L.
  simpl. rewrite (right_id_L ∅ (∪)). apply (comm_L (∪)).
Qed.

Lemma base_names_app_notin (l1 l2 : list string) (k : string) :
  Forall (fun q => frame_id q ≠ k) l2 →
  base_names (l1 ++ l2) !! k = base_names l1 !! k.
Proof.
  induction l2 as [|f l2 IH] using rev_ind; intros Hall.
  - by rewrite app_nil_r.
  - apply Forall_app in Hall as [Hl2 Hf].
    rewrite app_assoc, base_names_snoc, lookup_insert_ne; [by apply IH|].
    by inversion Hf.
Qed.

(** C3. When several paths of one list have the same Frame Identifier, the
    mapping built for that list holds, under that key, the path that comes
    last in the list: every path [p] that no later path shares its key with
    is the value of its key, whatever paths with the same key come before
    it. The mapping is a total function of the list: nothing is raised. *)
Theorem base_names_last_wins (l1 l2 : list string) (p : string) :
  Forall (fun q => frame_id q ≠ frame_id p) l2 →
  base_names (l1 ++ p :: l2) !! frame_id p = Some p.
Proof.
  intros Hlater.
  replace (l1 ++ p :: l2) with ((l1 ++ [p]) ++ l2)
    by (by rewrite <- app_assoc).
  rewrite base_names_app_notin by done.
  rewrite base_names_snoc. apply lookup_insert_eq.
Qed.

Lemma base_names_last_wins_witness :
  Forall (fun q => frame_id q ≠ frame_id "b/0001.txt") ["b/0002.txt"]
  ∧ base_names (["a/0001.txt"] ++ "b/0001.txt" :: ["b/0002.txt"])
      !! frame_id "b/0001.txt" = Some "b/0001.txt".
Proof.
  assert (Forall (fun q => frame_id q ≠ frame_id "b/0001.txt") ["b/0002.txt"])
    as H by (repeat constructor; vm_compute; discriminate).
  split; [exact H|].
  exact (base_names_last_wins ["a/0001.txt"] ["b/0002.txt"] "b/0001.txt" H).
Defined.

(** ** The synchronizer *)

Lemma common_keys_elem (P I : list string) (k : string) :
  k ∈ sorted (elements (dom (base_names P) ∩ dom (base_names I)))
  ↔ k ∈ keys P ∩ keys I.
Proof. by rewrite sorted_Permutation, elem_of_elements, !dom_base_names. Qed.

(** C1. [synchronize_data] returns a list of pairs (it raises no
    [KeyError]); the list has as many pairs as the two key sets have keys in
    common; the two paths of every pair have the same key; the keys of the
    pairs, in the order of the list, are strictly ascending; and the list is
    empty when the key sets are disjoint, in particular when one of the two
    input lists is empty. *)
Theorem synchronize_data_spec (P I : list string) :
  ∃ pairs : list (string * string),
    synchronize_data P I = Some pairs
    ∧ length pairs = size (keys P ∩ keys I)
    ∧ Forall (fun pr => frame_id (snd pr) = frame_id (fst pr)) pairs
    ∧ Sorted PyStr.lt (map (fun pr => frame_id (fst pr)) pairs)
    ∧ (keys P ## keys I → pairs = [])
    ∧ (P = [] ∨ I = [] → pairs = []).
Proof.
  unfold synchronize_data.
  set (ck := sorted (elements (dom (base_names P) ∩ dom (base_names I)))).
  set (look := fun key : string =>
                 l ← base_names P !! key; i ← base_names I !! key; Some (l, i)).
  assert (Hck : ∀ k, k ∈ ck ↔ k ∈ keys P ∩ keys I)
    by apply common_keys_elem.
  assert (Hlook : ∀ k, k ∈ ck → ∃ l i, look k = Some (l, i)
                        ∧ frame_id l = k ∧ frame_id i = k).
  { intros k [HkP HkI]%Hck%elem_of_intersection.
    rewrite <- dom_base_names in HkP, HkI.
    apply elem_of_dom in HkP as [l Hl], HkI as [i Hi].
    exists l, i. unfold look. rewrite Hl, Hi. simpl.
    split; [done|]. split; [by eapply base_names_lookup|].
    by eapply base_names_lookup. }
  destruct (mapM look ck) as [pairs|] eqn:Hm; cycle 1.
  { exfalso. apply eq_None_not_Some in Hm. apply Hm, mapM_is_Some.
    apply Forall_forall. intros k Hk.
    destruct (Hlook k Hk) as (l & i & Hl & _).
    unfold compose. rewrite Hl. by eexists. }
  exists pairs. split; [done|].
  apply mapM_Some in Hm.
  assert (Hlen : length pairs = length ck)
    by (symmetry; by eapply Forall2_length).
  assert (Hgen : ∀ ks ps,
             Forall2 (fun k pr => look k = Some pr) ks ps →
             (∀ k, k ∈ ks → k ∈ ck) →
             map (fun pr => frame_id (fst pr)) ps = ks
             ∧ Forall (fun pr => frame_id (snd pr) = frame_id (fst pr)) ps).
  { intros ks ps HF. induction HF as [|k pr ks ps Hk HF IH]; intros Hin.
    - by split.
    - destruct (Hlook k) as (l & i & Hl & Hfl & Hfi).
      { apply Hin. by left. }
      rewrite Hl in Hk. injection Hk as <-.
      destruct IH as [IH1 IH2]; [intros; apply Hin; by right|].
      simpl. rewrite Hfl, IH1. split; [done|].
      constructor; [simpl; congruence|done]. }
  destruct (Hgen ck pairs Hm) as [Hkeys Hsame]; [done|].
  assert (Hempty : keys P ## keys I → pairs = []).
  { intros Hdisj. destruct pairs as [|pr pairs]; [done|]. exfalso.
    assert (frame_id (fst pr) ∈ ck) as Hin
      by (rewrite <- Hkeys; by left).
    apply Hck, elem_of_intersection in Hin as [? ?]. by eapply Hdisj. }
  repeat split.
  - rewrite Hlen. unfold ck. rewrite sorted_Permutation.
    by rewrite !dom_base_names.
  - done.
  - rewrite Hkeys. apply Sorted_le_NoDup_lt; [apply sorted_Sorted|].
    unfold ck. rewrite sorted_Permutation. apply NoDup_elements.
  - done.
  - intros [-> | ->]; apply Hempty; unfold keys; simpl.
    + apply disjoint_empty_l.
    + apply disjoint_empty_r.
Qed.

(** The scenarios of the specification. *)
Example frame_id_kitti :
  frame_id "lidar_temp/velodyne_points/data/0000000001.txt" = "0000000001".
Proof. reflexivity. Qed.

Example frame_id_hidden : frame_id "a/.hidden" = ".hidden".
Proof. reflexivity. Qed.

Example frame_id_two_dots : frame_id "a.b/c.d.e" = "c.d".
Proof. reflexivity. Qed.

Example synchronize_scenario :
  synchronize_data ["l/0000000002.txt"; "l/0000000001.txt"]
                   ["i/0000000003.png"; "i/0000000001.png"]
  = Some [("l/0000000001.txt", "i/0000000001.png")].
Proof. vm_compute. reflexivity. Qed.

Example synchronize_sorts_by_key :
  synchronize_data ["z/2.txt"; "a/3.txt"; "m/1.txt"]
                   ["i/3.png"; "i/1.png"; "i/2.png"]
  = Some [("m/1.txt", "i/1.png"); ("z/2.txt", "i/2.png");
          ("a/3.txt", "i/3.png")].
Proof. vm_compute. reflexivity. Qed.

Example synchronize_empty_lidar :
  synchronize_data [] ["i/0000000001.png"] = Some [].
Proof. vm_compute. reflexivity. Qed.

Example synchronize_duplicate_key :
  synchronize_data ["a/1.txt"; "b/1.txt"] ["i/1.png"]
  = Some [("b/1.txt", "i/1.png")].
Proof. vm_compute. reflexivity. Qed.

(** ** Substrings, prefixes and suffixes *)

Lemma startswith_spec (s p : string) :
  PyStr.startswith s p = true ↔ ∃ post, s = p +:+ post.
Proof.
  unfold PyStr.startswith. revert s.
  induction p as [|a p IH]; intros s; simpl.
  - split; [intros _; by exists s|]. intros _. by destruct s.
  - destruct s as [|b s]; simpl.
    + split; [done|]. by intros [post ?].
    + destruct (ascii_dec a b) as [<-|Hne].
      * rewrite IH. split; intros [post Hp]; exists post.
        -- by rewrite Hp.
        -- by injection Hp.
      * split; [done|]. intros [post Hp]. injection Hp as ? ?. congruence.
Qed.

Lemma contains_spec (p s : string) :
  PyStr.contains p s = true ↔ ∃ pre post, s = pre +:+ p +:+ post.
Proof.
  induction s as [|b s IH].
  - change (PyStr.contains p "") with (PyStr.startswith "" p || false).
    rewrite orb_false_r, startswith_spec. split.
    + intros [post Hp]. by exists "", post.
    + intros (pre & post & Hp). destruct pre; [by exists post|done].
  - change (PyStr.contains p (String b s))
      with (PyStr.startswith (String b s) p || PyStr.contains p s).
    rewrite orb_true_iff, IH, startswith_spec. split.
    + intros [[post Hp]|(pre & post & Hp)].
      * by exists "", post.
      * exists (String b pre), post. by rewrite Hp.
    + intros (pre & post & Hp). destruct pre as [|c pre].
      * left. by exists post.
      * right. injection Hp as -> ->. by exists pre, post.
Qed.

Lemma endswith_spec (s p : string) :
  PyStr.endswith s p = true ↔ ∃ pre, s = pre +:+ p.
Proof.
  induction s as [|b s IH].
  - change (PyStr.endswith "" p) with (String.eqb "" p || false).
    rewrite orb_false_r, String.eqb_eq. split.
    + intros <-. by exists "".
    + intros [pre Hp]. by destruct pre, p.
  - change (PyStr.endswith (String b s) p)
      with (String.eqb (String b s) p || PyStr.endswith s p).
    rewrite orb_true_iff, IH, String.eqb_eq. split.
    + intros [<-|[pre ->]]; [by exists ""|by exists (String b pre)].
    + intros [pre Hp]. destruct pre as [|c pre].
      * by left.
      * right. injection Hp as -> ->. by exists pre.
Qed.

(** ** The file locators *)

Lemma velodyne_root_spec (root : string) :
  velodyne_root root = true
  ↔ is_substring "velodyne_points" root ∧ is_substring "data" root.
Proof.
  unfold velodyne_root, is_substring.
  by rewrite andb_true_iff, !contains_spec.
Qed.

Lemma image_root_spec (root : string) :
  image_root root = true
  ↔ is_substring "image_02" root ∧ is_substring "data" root.
Proof.
  unfold image_root, is_substring. by rewrite andb_true_iff, !contains_spec.
Qed.

Lemma velodyne_file_spec (file : string) :
  velodyne_file file = true
  ↔ has_suffix ".txt" file ∧ ¬ has_prefix "._" file.
Proof.
  unfold velodyne_file, has_suffix, has_prefix.
  rewrite andb_true_iff, negb_true_iff, endswith_spec, <- startswith_spec.
  by rewrite not_true_iff_false.
Qed.

Lemma image_file_spec (file : string) :
  image_file file = true
  ↔ (∃ ext, ext ∈ [".png"; ".jpg"; ".jpeg"]
            ∧ has_suffix ext (PyStr.lower file))
    ∧ ¬ has_prefix "._" file.
Proof.
  unfold image_file, has_suffix, has_prefix.
  rewrite andb_true_iff, negb_true_iff, existsb_exists, <- startswith_spec.
  rewrite not_true_iff_false.
  split; intros [(ext & Hin & Hext) Hpre]; (split; [|done]); exists ext.
  - apply list_elem_of_In in Hin. by rewrite <- endswith_spec.
  - apply list_elem_of_In in Hin. by rewrite endswith_spec.
Qed.

(** Membership in the list a locator collects, for any test on the
    directory path and on the file name. *)
Lemma collect_spec (okroot okfile : string → bool)
      (ws : list (string * list string * list string)) (p : string) :
  p ∈ flat_map (fun '(root, dirs, files) =>
                  if okroot root
                  then map (OsPath.join root) (List.filter okfile files)
                  else []) ws
  ↔ ∃ root dirs files file,
      (root, dirs, files) ∈ ws ∧ file ∈ files ∧ p = OsPath.join root file
      ∧ okroot root = true ∧ okfile file = true.
Proof.
  rewrite list_elem_of_In, in_flat_map. split.
  - intros ([[root dirs] files] & Hw & Hp).
    destruct (okroot root) eqn:Hroot; [|done].
    apply in_map_iff in Hp as (file & <- & [Hfile Hok]%filter_In).
    exists root, dirs, files, file.
    by rewrite !list_elem_of_In.
  - intros (root & dirs & files & file & Hw & Hfile & -> & Hroot & Hok).
    exists (root, dirs, files). rewrite <- list_elem_of_In. split; [done|].
    rewrite Hroot. apply in_map, filter_In.
    by rewrite <- list_elem_of_In.
Qed.

(** C2. A path is in the result of a locator exactly when it is the path
    of a file that [os.walk] meets in a directory whose path contains the
    marker of the sensor and contains [data], whose name ends with an
    extension of the allow-list (for images after lower-casing the name,
    for point clouds as it is written) and does not begin with [._]; and
    both results are in ascending order. *)
Theorem find_files_spec (base_dir : string) (t : dir_tree) :
  (∀ p, p ∈ find_velodyne_txt_files base_dir t ↔
     ∃ root dirs files file,
       (root, dirs, files) ∈ walk base_dir t ∧ file ∈ files
       ∧ p = OsPath.join root file
       ∧ (is_substring "velodyne_points" root ∧ is_substring "data" root)
       ∧ (has_suffix ".txt" file ∧ ¬ has_prefix "._" file))
  ∧ (∀ p, p ∈ find_image_files base_dir t ↔
     ∃ root dirs files file,
       (root, dirs, files) ∈ walk base_dir t ∧ file ∈ files
       ∧ p = OsPath.join root file
       ∧ (is_substring "image_02" root ∧ is_substring "data" root)
       ∧ ((∃ ext, ext ∈ [".png"; ".jpg"; ".jpeg"]
                  ∧ has_suffix ext (PyStr.lower file))
          ∧ ¬ has_prefix "._" file))
  ∧ Sorted String.le (find_velodyne_txt_files base_dir t)
  ∧ Sorted String.le (find_image_files base_dir t).
Proof.
  unfold find_velodyne_txt_files, find_image_files.
  repeat split; try apply sorted_Sorted.
  - rewrite sorted_Permutation, collect_spec.
    intros (root & dirs & files & file & ? & ? & ? & ?%velodyne_root_spec
            & ?%velodyne_file_spec). by exists root, dirs, files, file.
  - rewrite sorted_Permutation, collect_spec.
    intros (root & dirs & files & file & ? & ? & ? & ?%velodyne_root_spec
            & ?%velodyne_file_spec). by exists root, dirs, files, file.
  - rewrite sorted_Permutation, collect_spec.
    intros (root & dirs & files & file & ? & ? & ? & ?%image_root_spec
            & ?%image_file_spec). by exists root, dirs, files, file.
  - rewrite sorted_Permutation, collect_spec.
    intros (root & dirs & files & file & ? & ? & ? & ?%image_root_spec
            & ?%image_file_spec). by exists root, dirs, files, file.
Qed.

(** The extension test is exact for point clouds and blind to case for
    images; a name that begins with [._] is left out by both. *)
Example velodyne_file_lower : velodyne_file "0000000001.txt" = true.
Proof. reflexivity. Qed.
Example velodyne_file_upper : velodyne_file "0000000001.TXT" = false.
Proof. reflexivity. Qed.
Example image_file_upper : image_file "0000000001.PNG" = true.
Proof. reflexivity. Qed.
Example image_file_jpeg : image_file "0000000001.Jpeg" = true.
Proof. reflexivity. Qed.
Example image_file_sentinel : image_file "._0000000001.png" = false.
Proof. reflexivity. Qed.

Example find_velodyne_example :
  find_velodyne_txt_files "lidar_temp"
    (Dir ["data.zip"]
       [("drive", Dir []
          [("velodyne_points", Dir ["timestamps.txt"]
             [("data", Dir ["2.txt"; "._1.txt"; "1.txt"; "3.TXT"] [])])])])
  = ["lidar_temp/drive/velodyne_points/data/1.txt";
     "lidar_temp/drive/velodyne_points/data/2.txt"].
Proof. vm_compute. reflexivity. Qed.

(** ** The frame loader *)

Section LoaderFacts.

Context {F : Type} (floatconv : string → option F).

Lemma convert_row_Ok (vals : list string) (items : list F) :
  convert_row floatconv vals = Ok items
  ↔ Forall2 (fun v x => floatconv v = Some x) vals items.
Proof.
  revert items. induction vals as [|v vals IH]; intros items; simpl.
  - split; [intros [= <-]; constructor|by inversion 1].
  - destruct (floatconv v) as [x|] eqn:Hv.
    + destruct (convert_row floatconv vals) as [xs|e] eqn:Hc.
      * split.
        -- intros [= <-]. constructor; [done|]. by apply IH.
        -- inversion 1 as [|? y ? ys Hy Hys]; subst.
           apply IH in Hys. congruence.
      * split; [done|]. inversion 1 as [|? y ? ys Hy Hys]; subst.
        apply IH in Hys. done.
    + split; [done|]. inversion 1; congruence.
Qed.

Lemma convert_row_Raise (vals : list string) :
  is_Raise (convert_row floatconv vals)
  ↔ Exists (fun v => floatconv v = None) vals.
Proof.
  induction vals as [|v vals IH]; simpl.
  - split; [by intros [e ?]|by inversion 1].
  - destruct (floatconv v) as [x|] eqn:Hv.
    + rewrite Exists_cons. 
      destruct (convert_row floatconv vals) as [xs|e] eqn:Hc.
      * split; [by intros [e ?]|].
        intros [?|Hex]; [congruence|]. apply IH in Hex as [e ?]. done.
      * split; [|by eexists]. intros _. right. apply IH. by eexists.
    + split; [|by eexists]. intros _. by left.
Qed.

Lemma first_vals_rows (lines : list string) :
  first_vals lines = hd [] (rows_of lines).
Proof.
  unfold rows_of. induction lines as [|line lines IH]; [done|]. simpl.
  destruct (split_line line) as [|v vals]; [done|done].
Qed.

Lemma read_rows_cons (ncols : nat) (line : string) (rest : list string) :
  read_rows floatconv ncols (line :: rest)
  = if Nat.eqb (length (split_line line)) 0
    then read_rows floatconv ncols rest
    else if negb (Nat.eqb (length (split_line line)) ncols)
    then Raise (ValueError "Wrong number of columns")
    else match convert_row floatconv (split_line line) with
         | Raise e => Raise e
         | Ok items =>
             match read_rows floatconv ncols rest with
             | Ok X => Ok (items :: X)
             | Raise e => Raise e
             end
         end.
Proof. reflexivity. Qed.

Lemma rows_of_cons (line : string) (rest : list string) :
  rows_of (line :: rest)
  = if Nat.eqb (length (split_line line)) 0 then rows_of rest
    else split_line line :: rows_of rest.
Proof.
  unfold rows_of. simpl.
  by destruct (Nat.eqb (length (split_line line)) 0).
Qed.

Lemma read_rows_Ok (ncols : nat) (lines : list string) (X : list (list F)) :
  read_rows floatconv ncols lines = Ok X
  ↔ Forall2 (fun vals items =>
               length vals = ncols
               ∧ Forall2 (fun v x => floatconv v = Some x) vals items)
            (rows_of lines) X.
Proof.
  revert X. induction lines as [|line lines IH]; intros X.
  - split; [intros [= <-]; constructor|by inversion 1].
  - rewrite read_rows_cons, rows_of_cons.
    destruct (Nat.eqb (length (split_line line)) 0); [apply IH|].
    destruct (Nat.eqb_spec (length (split_line line)) ncols) as [Hn|Hn];
      simpl.
    + destruct (convert_row floatconv (split_line line)) as [items|e] eqn:Hc.
      * apply convert_row_Ok in Hc.
        destruct (read_rows floatconv ncols lines) as [Y|e] eqn:Hr.
        -- split.
           ++ intros [= <-]. constructor; [done|]. by apply (proj1 (IH Y)).
           ++ inversion 1 as [|? row ? Y' [_ Hrow] HY]; subst.
              apply (proj2 (IH Y')) in HY. injection HY as <-.
              apply convert_row_Ok in Hc, Hrow. congruence.
        -- split; [done|]. inversion 1 as [|? row ? Y' _ HY]; subst.
           by apply (proj2 (IH Y')) in HY.
      * split; [done|]. inversion 1 as [|? row ? Y' [_ Hrow] HY]; subst.
        apply convert_row_Ok in Hrow. congruence.
    + split; [done|]. by inversion 1 as [|? row ? Y' [Hlen _] HY].
Qed.

Lemma read_rows_Raise (ncols : nat) (lines : list string) :
  is_Raise (read_rows floatconv ncols lines)
  ↔ Exists (fun vals =>
              length vals ≠ ncols
              ∨ Exists (fun v => floatconv v = None) vals)
           (rows_of lines).
Proof.
  induction lines as [|line lines IH].
  - split; [by intros [e ?]|by inversion 1].
  - rewrite read_rows_cons, rows_of_cons.
    destruct (Nat.eqb (length (split_line line)) 0); [apply IH|].
    rewrite Exists_cons, <- IH, <- convert_row_Raise.
    destruct (Nat.eqb_spec (length (split_line line)) ncols) as [Hn|Hn];
      simpl.
    + destruct (convert_row floatconv (split_line line)) as [items|e] eqn:Hc.
      * destruct (read_rows floatconv ncols lines) as [Y|e] eqn:Hr.
        -- split; [by intros [e ?]|].
           intros [[?|[e ?]]|[e ?]]; done.
        -- split; [|by eexists]. intros _. right. by eexists.
      * split; [|by eexists]. intros _. left. right. by eexists.
    + split; [|by eexists]. intros _. by left; left.
Qed.

End LoaderFacts.

Lemma Forall_exists_Forall2 {A B} (R : A → B → Prop) (l : list A) :
  Forall (fun a => ∃ b, R a b) l → ∃ k, Forall2 R l k.
Proof.
  induction 1 as [|a l [b Hb] _ [k Hk]]; [by exists []|].
  exists (b :: k). by constructor.
Qed.

(** C4, as the code has it. [load_lidar_from_txt] on a file that exists
    raises exactly when, among the rows of fields of its lines (a line
    loses its [#] comment and is skipped when nothing is left), some row
    has a field that is not a number or has not as many fields as the first
    row. And when there are at least two rows, each of exactly four
    numbers, it returns the table of these rows. *)
Theorem load_lidar_from_txt_spec {F : Type} (floatconv : string → option F)
        (fs : gmap string string) (file_path content : string) :
  fs !! file_path = Some content →
  (is_Raise (load_lidar_from_txt floatconv fs file_path)
   ↔ Exists (fun vals =>
               length vals ≠ length (hd [] (data_rows content))
               ∨ Exists (fun v => floatconv v = None) vals)
            (data_rows content))
  ∧ (Forall (fun vals =>
               length vals = 4
               ∧ Forall (fun v => is_Some (floatconv v)) vals)
            (data_rows content) →
     (2 ≤ length (data_rows content))%nat →
     ∃ X, Forall2 (Forall2 (fun v x => floatconv v = Some x))
                  (data_rows content) X
          ∧ load_lidar_from_txt floatconv fs file_path = Ok (Array2 4 X)).
Proof.
  intros Hfile. unfold load_lidar_from_txt, loadtxt, data_rows.
  rewrite Hfile, first_vals_rows.
  set (lines := text_lines content). set (ncols := length (hd [] (rows_of lines))).
  split.
  - rewrite <- read_rows_Raise.
    destruct (read_rows floatconv ncols lines) as [X|e].
    + split; intros [e' He']; discriminate.
    + split; intros _; by exists e.
  - intros Hrows Hlen.
    assert (Hn : ncols = 4).
    { unfold ncols. destruct (rows_of lines) as [|vals rest]; simpl in *.
      - lia.
      - by inversion Hrows as [|? ? [? _] _]. }
    assert (HX : ∃ X, Forall2 (Forall2 (fun v x => floatconv v = Some x))
                              (rows_of lines) X).
    { apply Forall_exists_Forall2. eapply Forall_impl; [exact Hrows|].
      intros vals [_ Hvals]. by apply Forall_exists_Forall2. }
    destruct HX as [X HX]. exists X. split; [done|].
    assert (Hread : read_rows floatconv ncols lines = Ok X).
    { apply read_rows_Ok. rewrite Hn.
      clear Hlen Hn. revert Hrows.
      induction HX as [|vals items rest X' Hvi HX IH]; intros Hrows;
        constructor.
      - split; [|done]. by inversion Hrows as [|? ? [? _] _].
      - apply IH. by inversion Hrows. }
    rewrite Hread, Hn.
    apply Forall2_length in HX. rewrite HX in Hlen.
    destruct X as [|r1 [|r2 X']]; simpl in Hlen; [lia|lia|done].
Qed.

Lemma load_lidar_from_txt_spec_witness :
  ({["f.txt" := two_point_text]} : gmap string string) !! "f.txt"
  = Some two_point_text
  ∧ ∃ X, load_lidar_from_txt DecimalLit.float {["f.txt" := two_point_text]}
           "f.txt" = Ok (Array2 4 X).
Proof.
  assert (({["f.txt" := two_point_text]} : gmap string string) !! "f.txt"
          = Some two_point_text) as Hfile by reflexivity.
  split; [exact Hfile|].
  destruct (load_lidar_from_txt_spec DecimalLit.float _ _ _ Hfile)
    as [_ Htable].
  assert (data_rows two_point_text
          = [["1.0"; "2.0"; "3.0"; "0.5"]; ["4"; "5"; "6"; "0.25"]]) as Hrows
    by (vm_compute; reflexivity).
  destruct Htable as (X & _ & HX).
  - rewrite Hrows.
    repeat (constructor; try reflexivity);
      eexists; vm_compute; reflexivity.
  - rewrite Hrows. simpl. lia.
  - by exists X.
Defined.

(** C4, as it is stated, fails: in a file of two lines of three numbers no
    line splits into four numeric fields, and the file loads. *)
Lemma load_three_columns_no_error :
  ¬ (is_Raise (load_lidar_from_txt DecimalLit.float
                 {["f.txt" := three_column_text]} "f.txt")
     ↔ Exists (fun line => four_numeric_fields DecimalLit.float line = false)
              (text_lines three_column_text)).
Proof.
  intros [_ Hraise]. destruct Hraise as [e He].
  - left. reflexivity.
  - vm_compute in He. discriminate.
Qed.

Example load_three_columns :
  load_lidar_from_txt DecimalLit.float {["f.txt" := three_column_text]} "f.txt"
  = Ok (Array2 3 [[1; 2; 3]; [4; 5; 6]]%Q).
Proof. vm_compute. reflexivity. Qed.

(** C5. A file whose only line is [1.0 2.0 3.0 0.5] loads to a flat array
    of four numbers, of shape [(4,)], not to a table of one row and four
    columns; the table the callers build from it with the four column
    labels is refused. *)
Theorem load_one_line_is_flat :
  load_lidar_from_txt DecimalLit.float {["frame.txt" := one_line_text]}
    "frame.txt"
  = Ok (Array1 [1; 2; 3; 1 # 2]%Q)
  ∧ shape (Array1 [1; 2; 3; 1 # 2]%Q) = [4]
  ∧ shape (Array2 4 [[1; 2; 3; 1 # 2]]%Q) = [1; 4]
  ∧ is_Raise (DataFrame (Array1 [1; 2; 3; 1 # 2]%Q)
                        ["x"; "y"; "z"; "intensity"]).
Proof.
  split; [vm_compute; reflexivity|].
  split; [reflexivity|]. split; [reflexivity|].
  vm_compute. by eexists.
Qed.

(** ** The raw export *)

Section ZipFacts.

Context (fs : gmap string string).

Lemma export_zip_pairs_Ok (synced_data : list (string * string))
      (zf : archive) (entries : list (string * string)) :
  Forall2 (entry_of fs) (referenced synced_data) entries →
  export_zip_pairs fs synced_data zf = (zf ++ entries, Ok tt).
Proof.
  revert zf entries.
  induction synced_data as [|[lidar_file image_file] rest IH];
    intros zf entries Hent; simpl in Hent.
  - inversion Hent. by rewrite app_nil_r.
  - inversion Hent as [|? [n1 c1] ? ents1 [Hn1 Hc1] Hent1]; subst.
    inversion Hent1 as [|? [n2 c2] ? ents2 [Hn2 Hc2] Hent2]; subst.
    simpl in *. subst n1 n2.
    unfold mbind, M_mbind, M_bind, zf_write. rewrite Hc1, Hc2.
    rewrite (IH _ _ Hent2). by rewrite <- !app_assoc.
Qed.

Lemma entries_exist (files : list string) :
  Forall (fun f => is_Some (fs !! f)) files →
  ∃ entries, Forall2 (entry_of fs) files entries.
Proof.
  intros Hall. apply Forall_exists_Forall2.
  eapply Forall_impl; [exact Hall|].
  intros f [c Hc]. by exists (OsPath.basename f, c).
Qed.

Lemma entries_named_count (name : string) (files : list string)
      (entries : list (string * string)) :
  Forall2 (entry_of fs) files entries →
  entries_named name entries
  = length (List.filter (fun f => String.eqb (OsPath.basename f) name) files).
Proof.
  unfold entries_named.
  induction 1 as [|f [n c] files entries [Hn _] _ IH]; [done|].
  simpl in *. subst n.
  destruct (String.eqb (OsPath.basename f) name); simpl; by rewrite IH.
Qed.

Lemma extractall_snoc (zf : archive) (name content : string) :
  extractall (zf ++ [(name, content)]) = <[name := content]> (extractall zf).
Proof. unfold extractall. by rewrite foldl_app. Qed.

Lemma extractall_app_notin (zf1 zf2 : archive) (name : string) :
  Forall (fun e => e.1 ≠ name) zf2 →
  extractall (zf1 ++ zf2) !! name = extractall zf1 !! name.
Proof.
  induction zf2 as [|[n c] zf2 IH] using rev_ind; intros Hall.
  - by rewrite app_nil_r.
  - apply Forall_app in Hall as [Hzf2 Hn].
    rewrite app_assoc, extractall_snoc, lookup_insert_ne; [by apply IH|].
    by inversion Hn.
Qed.

(** Extraction keeps, for a file, its content, when no file written after
    it has its base name. *)
Lemma extractall_last (l1 l2 : list string) (f : string)
      (entries : list (string * string)) :
  Forall2 (entry_of fs) (l1 ++ f :: l2) entries →
  Forall (fun g => OsPath.basename g ≠ OsPath.basename f) l2 →
  extractall entries !! OsPath.basename f = fs !! f.
Proof.
  intros Hent Hlater.
  apply Forall2_app_inv_l in Hent as (e1 & e2' & He1 & He2 & ->).
  inversion He2 as [|? [n c] ? e2 [Hn Hc] He2']; subst. simpl in *. subst n.
  replace (e1 ++ (OsPath.basename f, c) :: e2)
    with ((e1 ++ [(OsPath.basename f, c)]) ++ e2)
    by (by rewrite <- app_assoc).
  rewrite extractall_app_notin, extractall_snoc, lookup_insert_eq; [done|].
  clear He2. induction He2' as [|g [n' c'] l2' e2 [Hn' _] _ IH];
    constructor.
  - simpl in *. subst n'. by inversion Hlater.
  - apply IH. by inversion Hlater.
Qed.

End ZipFacts.

(** C7, as the code has it. When every file the pairs refer to can be
    read, the raw export leaves an archive with one entry for every
    reference to a file, in the order of the pairs, each under the base
    name of the file and with its content. Entries are never replaced: a
    name has as many entries as there are references to files with that
    base name. It is on reading the archive back that the later of two
    entries with one name is the one that stays. *)
Theorem export_zip_spec (fs : gmap string string)
        (synced_data : list (string * string)) :
  Forall (fun f => is_Some (fs !! f)) (referenced synced_data) →
  ∃ zf : archive,
    export_zip fs synced_data = (zf, Ok tt)
    ∧ Forall2 (fun f e => e.1 = OsPath.basename f ∧ fs !! f = Some e.2)
              (referenced synced_data) zf
    ∧ (∀ name,
         entries_named name zf
         = length (List.filter
                     (fun f => String.eqb (OsPath.basename f) name)
                     (referenced synced_data)))
    ∧ (∀ l1 f l2,
         referenced synced_data = l1 ++ f :: l2 →
         Forall (fun g => OsPath.basename g ≠ OsPath.basename f) l2 →
         extractall zf !! OsPath.basename f = fs !! f).
Proof.
  intros Hall. destruct (entries_exist fs _ Hall) as [entries Hent].
  exists entries. split; [|split; [|split]].
  - unfold export_zip. by rewrite (export_zip_pairs_Ok fs _ [] entries Hent).
  - exact Hent.
  - intros name. by apply (entries_named_count fs).
  - intros l1 f l2 Hsplit Hlater. rewrite Hsplit in Hent.
    by eapply extractall_last.
Qed.

Lemma export_zip_spec_witness :
  Forall (fun f => is_Some (clash_fs !! f)) (referenced clash_pairs)
  ∧ ∃ zf : archive,
      export_zip clash_fs clash_pairs = (zf, Ok tt)
      ∧ entries_named "f.txt" zf = 2.
Proof.
  assert (Forall (fun f => is_Some (clash_fs !! f)) (referenced clash_pairs))
    as Hall by (repeat constructor; by eexists).
  split; [exact Hall|].
  destruct (export_zip_spec clash_fs clash_pairs Hall)
    as (zf & Hzf & _ & Hcount & _).
  exists zf. split; [exact Hzf|]. by rewrite Hcount.
Defined.

(** C7, as it is stated, fails: of two files with the base name [f.txt]
    both are in the archive, under the same name. *)
Lemma export_zip_keeps_both_entries :
  export_zip clash_fs clash_pairs
  = ([("f.txt", "A"); ("f.png", "P"); ("f.txt", "B"); ("g.png", "Q")], Ok tt)
  ∧ entries_named "f.txt"
      [("f.txt", "A"); ("f.png", "P"); ("f.txt", "B"); ("g.png", "Q")] ≠ 1.
Proof. split; [vm_compute; reflexivity|vm_compute; lia]. Qed.

(** C8, as the code has it. When every file the pairs refer to can be
    read, exporting them and extracting the archive gives, for every such
    file that no file written after it shares its base name with, a file
    of that base name with the same bytes. *)
Theorem export_zip_round_trip (fs : gmap string string)
        (synced_data : list (string * string)) (l1 l2 : list string)
        (f : string) :
  Forall (fun g => is_Some (fs !! g)) (referenced synced_data) →
  referenced synced_data = l1 ++ f :: l2 →
  Forall (fun g => OsPath.basename g ≠ OsPath.basename f) l2 →
  ∃ (zf : archive) (bytes : string),
    export_zip fs synced_data = (zf, Ok tt)
    ∧ fs !! f = Some bytes
    ∧ extractall zf !! OsPath.basename f = Some bytes.
Proof.
  intros Hall Hsplit Hlater.
  destruct (entries_exist fs _ Hall) as [entries Hent].
  assert (is_Some (fs !! f)) as [bytes Hbytes].
  { eapply Forall_forall in Hall; [exact Hall|].
    rewrite Hsplit. apply elem_of_app. right. by left. }
  exists entries, bytes. split; [|split; [done|]].
  - unfold export_zip. by rewrite (export_zip_pairs_Ok fs _ [] entries Hent).
  - rewrite <- Hbytes. rewrite Hsplit in Hent. by eapply extractall_last.
Qed.

Lemma export_zip_round_trip_witness :
  Forall (fun g => is_Some (clash_fs !! g)) (referenced clash_pairs)
  ∧ referenced clash_pairs = ["a/f.txt"; "a/f.png"] ++ "b/f.txt" :: ["b/g.png"]
  ∧ Forall (fun g => OsPath.basename g ≠ OsPath.basename "b/f.txt")
           ["b/g.png"]
  ∧ ∃ (zf : archive) (bytes : string),
      export_zip clash_fs clash_pairs = (zf, Ok tt)
      ∧ clash_fs !! "b/f.txt" = Some bytes
      ∧ extractall zf !! OsPath.basename "b/f.txt" = Some bytes.
Proof.
  assert (Forall (fun g => is_Some (clash_fs !! g)) (referenced clash_pairs))
    as Hall by (repeat constructor; by eexists).
  assert (referenced clash_pairs
          = ["a/f.txt"; "a/f.png"] ++ "b/f.txt" :: ["b/g.png"])
    as Hsplit by reflexivity.
  assert (Forall (fun g => OsPath.basename g ≠ OsPath.basename "b/f.txt")
                 ["b/g.png"])
    as Hlater by (repeat constructor; vm_compute; discriminate).
  split; [exact Hall|]. split; [exact Hsplit|]. split; [exact Hlater|].
  exact (export_zip_round_trip clash_fs clash_pairs _ _ _ Hall Hsplit Hlater).
Defined.

(** C8, as it is stated, fails: the file [a/f.txt] is referred to by the
    pairs and holds [A], the export succeeds, and no file extracted from the
    archive holds [A]. *)
Lemma export_zip_loses_shadowed_file :
  In "a/f.txt" (referenced clash_pairs)
  ∧ clash_fs !! "a/f.txt" = Some "A"
  ∧ ∃ zf : archive,
      export_zip clash_fs clash_pairs = (zf, Ok tt)
      ∧ extractall zf !! "f.txt" = Some "B"
      ∧ ∀ name, extractall zf !! name ≠ Some "A".
Proof.
  split; [by left|]. split; [reflexivity|].
  exists [("f.txt", "A"); ("f.png", "P"); ("f.txt", "B"); ("g.png", "Q")].
  split; [vm_compute; reflexivity|]. split; [reflexivity|].
  intros name. unfold extractall. simpl.
  destruct (decide (name = "g.png")) as [->|?]; [by rewrite lookup_insert_eq|].
  rewrite lookup_insert_ne by done.
  destruct (decide (name = "f.txt")) as [->|?]; [by rewrite lookup_insert_eq|].
  rewrite lookup_insert_ne by done.
  destruct (decide (name = "f.png")) as [->|?]; [by rewrite lookup_insert_eq|].
  rewrite lookup_insert_ne by done.
  rewrite lookup_insert_ne by done. by rewrite lookup_empty.
Qed.

(** ** Appending strings *)

Lemma string_app_assoc (s1 s2 s3 : string) :
  (s1 +:+ s2) +:+ s3 = s1 +:+ (s2 +:+ s3).
Proof.
  induction s1 as [|a s1 IH]; [done|].
  change (String a ((s1 +:+ s2) +:+ s3) = String a (s1 +:+ (s2 +:+ s3))).
  by rewrite IH.
Qed.

(** ** Pixels *)

Lemma chunk3_length {A} (n : nat) (xs : list A) :
  length xs = (n * 3)%nat → length (chunk3 xs) = n.
Proof.
  revert xs. induction n as [|n IH]; intros xs Hlen.
  - by destruct xs.
  - destruct xs as [|a [|b [|c rest]]]; simpl in Hlen; try lia.
    simpl. f_equal. apply IH. lia.
Qed.



(** ** The structured export *)

Lemma reshape_rows3_Some (img : image) :
  reshape_rows3 (Some img) = Ok (Array2 3 (chunk3 (pixels img))).
Proof.
  unfold reshape_rows3. rewrite (pixels_len img), Nat.Div0.mod_mul. done.
Qed.

(** The pairs of the example are pairs the loop of the structured export
    can write: the point-cloud file loads to a table of four columns and
    the image decodes. *)
Lemma demo_exportable :
  Forall (exportable DecimalLit.float demo_fs tiny_decode) demo_pairs.
Proof.
  repeat constructor.
  - eexists. vm_compute. reflexivity.
  - eexists. vm_compute. reflexivity.
Defined.

(** C6. The structured export writes no table. The script hands
    [pd.HDFStore] an [io.BytesIO] where the constructor takes the path of a
    file, so the constructor raises [TypeError] before the loop over the
    pairs is entered: whatever the pairs and the files, the export raises
    that exception and the store holds nothing, neither [pair_i/lidar] nor
    [pair_i/image] for any [i]. It is so for the pairs of the example,
    whose files the loop could write: there is no table [pair_0/lidar]. *)
Theorem export_h5_writes_no_table {F : Type} (floatconv : string → option F)
        (fs : gmap string string) (imdecode : string → option image)
        (msg : string) (synced_data : list (string * string)) :
  export_h5 floatconv fs imdecode (HDFStore_BytesIO msg) synced_data
  = (∅, Raise (TypeError msg))
  ∧ (∀ i,
       (@fst (gmap string (frame F + frame N)) (result unit)
          (export_h5 floatconv fs imdecode (HDFStore_BytesIO msg)
                   synced_data))
         !! lidar_key i = None
       ∧ (@fst (gmap string (frame F + frame N)) (result unit)
          (export_h5 floatconv fs imdecode (HDFStore_BytesIO msg)
                     synced_data))
           !! image_key i = None)
  ∧ Forall (exportable DecimalLit.float demo_fs tiny_decode) demo_pairs
  ∧ demo_pairs ≠ []
  ∧ export_h5 DecimalLit.float demo_fs tiny_decode (HDFStore_BytesIO msg)
              demo_pairs
    = (∅, Raise (TypeError msg))
  ∧ (@fst (gmap string (frame Q + frame N)) (result unit)
          (export_h5 DecimalLit.float demo_fs tiny_decode (HDFStore_BytesIO msg)
                demo_pairs))
      !! "pair_0/lidar" = None.
Proof.
  split; [reflexivity|].
  split; [intros i; split; exact (lookup_empty _)|].
  split; [exact demo_exportable|]. split; [discriminate|].
  split; [reflexivity|exact (lookup_empty _)].
Qed.



(** ** The export handler *)

(** C9. Whatever the format, when the build of the output raises, the
    handler shows one error naming the exception and no download button,
    and the buffer written so far is dropped; a download button is shown
    only for the buffer of a build that ran to its end. *)
Theorem export_button_atomic {F : Type} (floatconv : string → option F)
        (fs : gmap string string) (imdecode : string → option image)
        (HDFStore_open : result unit) (export_format : string)
        (synced_data : list (string * string)) :
  synced_data ≠ [] →
  (∀ zip_buffer e,
     export_format = ".zip" →
     export_zip fs synced_data = (zip_buffer, Raise e) →
     export_button floatconv fs imdecode HDFStore_open export_format
                   synced_data
     = [st_error ("Error exporting data: " +:+ exn_str e)])
  ∧ (∀ h5_buffer e,
       export_format = ".h5" →
       export_h5 floatconv fs imdecode HDFStore_open synced_data
       = (h5_buffer, Raise e) →
       export_button floatconv fs imdecode HDFStore_open export_format
                     synced_data
       = [st_error ("Error exporting data: " +:+ exn_str e)])
  ∧ (∀ label data file_name mime,
       In (st_download_button label data file_name mime)
          (export_button floatconv fs imdecode HDFStore_open export_format
                         synced_data) →
       (∃ zf, data = ZipBuffer zf
              ∧ export_zip fs synced_data = (zf, Ok tt))
       ∨ (∃ st, data = H5Buffer st
                ∧ export_h5 floatconv fs imdecode HDFStore_open synced_data
                  = (st, Ok tt))).
Proof.
  intros Hne. unfold export_button.
  rewrite bool_decide_eq_false_2 by done.
  split; [|split].
  - intros zip_buffer e -> Hzip. simpl. by rewrite Hzip.
  - intros h5_buffer e -> Hh5. simpl. by rewrite Hh5.
  - intros label data file_name mime Hin.
    destruct (String.eqb export_format ".zip").
    + destruct (export_zip fs synced_data) as [zf [[]|e]] eqn:Hzip.
      * destruct Hin as [[= <- <- <- <-]|[]]. left. by exists zf.
      * by destruct Hin as [|[]].
    + destruct (String.eqb export_format ".h5"); [|done].
      destruct (export_h5 floatconv fs imdecode HDFStore_open synced_data)
        as [st [[]|e]] eqn:Hh5.
      * destruct Hin as [[= <- <- <- <-]|[]]. right. by exists st.
      * by destruct Hin as [|[]].
Qed.

Lemma export_button_atomic_witness :
  broken_pairs ≠ []
  ∧ export_zip clash_fs broken_pairs
    = ([("f.txt", "A")],
       Raise (FileNotFoundError
                "[Errno 2] No such file or directory: 'a/missing.png'"))
  ∧ export_button DecimalLit.float clash_fs tiny_decode (Ok tt) ".zip"
                  broken_pairs
    = [st_error
         "Error exporting data: [Errno 2] No such file or directory: 'a/missing.png'"].
Proof.
  assert (broken_pairs ≠ []) as Hne by discriminate.
  assert (export_zip clash_fs broken_pairs
          = ([("f.txt", "A")],
             Raise (FileNotFoundError
                      "[Errno 2] No such file or directory: 'a/missing.png'")))
    as Hzip by (vm_compute; reflexivity).
  split; [exact Hne|]. split; [exact Hzip|].
  destruct (export_button_atomic DecimalLit.float clash_fs tiny_decode
              (Ok tt) ".zip" broken_pairs Hne) as [Hfail _].
  exact (Hfail _ _ eq_refl Hzip).
Defined.

(** The handler on an empty list of pairs, and on a build that runs to its
    end. *)
Example export_button_no_pairs :
  export_button DecimalLit.float clash_fs tiny_decode (Ok tt) ".zip" []
  = [st_error "No synchronized data available to export."].
Proof. reflexivity. Qed.

Example export_button_zip :
  export_button DecimalLit.float clash_fs tiny_decode (Ok tt) ".zip"
                [("a/f.txt", "a/f.png")]
  = [st_download_button "Download ZIP"
                        (ZipBuffer [("f.txt", "A"); ("f.png", "P")])
                        "synced_data.zip" "application/zip"].
Proof. vm_compute. reflexivity. Qed.

(** * Further properties *)

(** ** Paths *)

Lemma absent_cons (c a : ascii) (s : string) :
  absent c (String a s) ↔ a ≠ c ∧ absent c s.
Proof.
  unfold absent. simpl. split.
  - by inversion 1.
  - intros [? ?]. by constructor.
Qed.

Lemma absent_app (c : ascii) (s t : string) :
  absent c (s +:+ t) ↔ absent c s ∧ absent c t.
Proof.
  induction s as [|a s IH].
  - change ("" +:+ t) with t. split; [|by intros [_ ?]].
    intros ?. split; [constructor|done].
  - change (String a s +:+ t) with (String a (s +:+ t)).
    rewrite !absent_cons, IH. tauto.
Qed.

Lemma rfind_from_absent (c : ascii) (s : string) (i last : Z) :
  absent c s → PyStr.rfind_from c s i last = last.
Proof.
  revert i last. induction s as [|a s IH]; intros i last Habs; [done|].
  apply absent_cons in Habs as [Hne Habs]. simpl.
  rewrite IH by done. by apply Ascii.eqb_neq in Hne as ->.
Qed.

Lemma rfind_from_last (c : ascii) (pre s : string) (i last : Z) :
  absent c s →
  PyStr.rfind_from c (pre +:+ String c s) i last
  = (i + Z.of_nat (String.length pre))%Z.
Proof.
  intros Habs. revert i last. induction pre as [|a pre IH]; intros i last.
  - change ("" +:+ String c s) with (String c s). simpl.
    rewrite rfind_from_absent by done. rewrite Ascii.eqb_refl. lia.
  - change (String a pre +:+ String c s) with (String a (pre +:+ String c s)).
    simpl PyStr.rfind_from. rewrite IH. simpl String.length. lia.
Qed.

Lemma drop_app_length (pre s : string) :
  PyStr.drop (String.length pre) (pre +:+ s) = s.
Proof. induction pre as [|a pre IH]; [by destruct s|exact IH]. Qed.

Lemma take_app_length (pre s : string) :
  PyStr.take (String.length pre) (pre +:+ s) = pre.
Proof.
  induction pre as [|a pre IH]; [by destruct s|].
  change (String a pre +:+ s) with (String a (pre +:+ s)).
  simpl. by rewrite IH.
Qed.

Lemma basename_no_slash (b : string) :
  absent "/" b → OsPath.basename b = b.
Proof.
  intros Habs. unfold OsPath.basename, PyStr.rfind.
  by rewrite rfind_from_absent.
Qed.

Lemma basename_after_slash (pre b : string) :
  absent "/" b → OsPath.basename (pre +:+ String "/" b) = b.
Proof.
  intros Habs. unfold OsPath.basename, PyStr.rfind, PyStr.slice_from.
  rewrite rfind_from_last by done.
  replace (Z.to_nat (0 + Z.of_nat (String.length pre) + 1))
    with (String.length (pre +:+ "/")).
  - rewrite <- (drop_app_length (pre +:+ "/") b) at 2.
    by rewrite string_app_assoc.
  - induction pre as [|a pre IH]; [done|].
    change (String a pre +:+ "/") with (String a (pre +:+ "/")).
    simpl String.length. lia.
Qed.

(** Every path is a name without a slash, or a directory part, a slash and
    such a name. *)
Lemma path_split (p : string) :
  absent "/" p ∨ ∃ pre b, p = pre +:+ String "/" b ∧ absent "/" b.
Proof.
  induction p as [|a p IH]; [left; constructor|].
  destruct IH as [Habs|(pre & b & -> & Habs)].
  - destruct (ascii_dec a "/") as [->|Hne].
    + right. by exists "", p.
    + left. by apply absent_cons.
  - right. by exists (String a pre), b.
Qed.

Lemma basename_absent (p : string) : absent "/" (OsPath.basename p).
Proof.
  destruct (path_split p) as [Habs|(pre & b & -> & Habs)].
  - by rewrite basename_no_slash.
  - by rewrite basename_after_slash.
Qed.

Lemma basename_suffix (p : string) : has_suffix (OsPath.basename p) p.
Proof.
  destruct (path_split p) as [Habs|(pre & b & -> & Habs)].
  - rewrite basename_no_slash by done. by exists "".
  - rewrite basename_after_slash by done. exists (pre +:+ "/").
    by rewrite string_app_assoc.
Qed.

Lemma startswith_slash_absent (file : string) :
  absent "/" file → PyStr.startswith file "/" = false.
Proof.
  intros Habs. destruct (PyStr.startswith file "/") eqn:Hs; [|done].
  apply startswith_spec in Hs as [post ->].
  change ("/" +:+ post) with (String "/" post) in Habs.
  apply absent_cons in Habs as [? _]. done.
Qed.

(** [os.path.join] puts its second argument at the end of the path. *)
Lemma join_suffix (root file : string) :
  has_suffix file (OsPath.join root file).
Proof.
  unfold OsPath.join.
  destruct (PyStr.startswith file "/"); [by exists ""|].
  destruct (String.eqb root "" || PyStr.endswith root "/").
  - by exists root.
  - exists (root +:+ "/"). by rewrite string_app_assoc.
Qed.

Lemma basename_join (root file : string) :
  absent "/" file → OsPath.basename (OsPath.join root file) = file.
Proof.
  intros Habs. unfold OsPath.join.
  rewrite startswith_slash_absent by done.
  destruct (String.eqb_spec root "") as [->|Hroot]; simpl.
  - by apply basename_no_slash.
  - destruct (PyStr.endswith root "/") eqn:Hend.
    + apply endswith_spec in Hend as [pre ->].
      rewrite string_app_assoc. by apply basename_after_slash.
    + by apply basename_after_slash.
Qed.

(** A suffix without a slash of a path is a suffix of its base name. *)
Lemma suffix_after_slash (pre' b pre s : string) :
  absent "/" s → pre +:+ s = pre' +:+ String "/" b → has_suffix s b.
Proof.
  intros Habs. revert pre. induction pre' as [|a pre' IH]; intros pre Heq.
  - destruct pre as [|a' pre].
    + change ("" +:+ s) with s in Heq. subst s.
      apply absent_cons in Habs as [? _]. done.
    + injection Heq as _ Heq. by exists pre.
  - destruct pre as [|a' pre].
    + change ("" +:+ s) with s in Heq. subst s.
      change (absent "/" (String a (pre' +:+ String "/" b))) in Habs.
      apply absent_cons in Habs as [_ Habs].
      apply absent_app in Habs as [_ Habs].
      apply absent_cons in Habs as [? _]. done.
    + injection Heq as _ Heq. by eapply IH.
Qed.

Lemma endswith_basename (p s : string) :
  absent "/" s → has_suffix s p → has_suffix s (OsPath.basename p).
Proof.
  intros Habs [pre Hp].
  destruct (path_split p) as [Hno|(pre' & b & -> & Hb)].
  - rewrite basename_no_slash by done. by exists pre.
  - rewrite basename_after_slash by done.
    by eapply suffix_after_slash.
Qed.

(** The Frame Identifier of a file in a directory: the name without its
    extension, when something other than dots comes before the
    extension. *)
Lemma frame_id_join (root stem ext : string) :
  absent "/" stem → absent "/" ext → absent "." ext →
  Exists (fun a => a ≠ "."%char) (list_ascii_of_string stem) →
  frame_id (OsPath.join root (stem +:+ String "." ext)) = stem.
Proof.
  intros Hstem Hext Hdot Hnondot. unfold frame_id.
  assert (Hname : absent "/" (stem +:+ String "." ext)).
  { apply absent_app. split; [done|]. by apply absent_cons. }
  rewrite basename_join by done.
  unfold OsPath.splitext, PyStr.rfind.
  rewrite (rfind_from_absent "/") by done.
  rewrite rfind_from_last by done.
  replace (-1 <? 0 + Z.of_nat (String.length stem))%Z with true
    by (symmetry; apply Z.ltb_lt; lia).
  unfold PyStr.slice, PyStr.slice_to.
  replace (Z.to_nat (0 + Z.of_nat (String.length stem) - (-1 + 1)))
    with (String.length stem) by lia.
  replace (Z.to_nat (-1 + 1)) with O by lia.
  replace (Z.to_nat (0 + Z.of_nat (String.length stem)))
    with (String.length stem) by lia.
  change (PyStr.drop 0 (stem +:+ String "." ext))
    with (stem +:+ String "." ext).
  rewrite take_app_length.
  destruct (forallb (fun a => Ascii.eqb a ".") (list_ascii_of_string stem))
    eqn:Hall; [|done].
  exfalso. apply Exists_exists in Hnondot as (a & Ha & Hne).
  rewrite forallb_forall in Hall.
  apply list_elem_of_In in Ha. apply Hall in Ha.
  by apply Ascii.eqb_eq in Ha.
Qed.

(** ** More on the synchronizer *)

Lemma synchronize_data_elem (P I : list string)
      (pairs : list (string * string)) (l i : string) :
  synchronize_data P I = Some pairs →
  ((l, i) ∈ pairs
   ↔ base_names P !! frame_id l = Some l
     ∧ base_names I !! frame_id l = Some i).
Proof.
  unfold synchronize_data. intros Hm. apply mapM_Some in Hm.
  split.
  - intros Hin. apply list_elem_of_lookup in Hin as [n Hn].
    destruct (Forall2_lookup_r _ _ _ _ _ Hm Hn) as (k & _ & Hk).
    destruct (base_names P !! k) as [l'|] eqn:HP; [|done].
    destruct (base_names I !! k) as [i'|] eqn:HI; [|done].
    simpl in Hk. injection Hk as -> ->.
    apply base_names_lookup in HP as HP'. destruct HP' as [<- _].
    done.
  - intros [HP HI].
    assert (frame_id l ∈ sorted (elements (dom (base_names P)
                                           ∩ dom (base_names I)))) as Hk.
    { rewrite sorted_Permutation, elem_of_elements, elem_of_intersection.
      split; apply elem_of_dom; by eexists. }
    apply list_elem_of_lookup in Hk as [n Hn].
    destruct (Forall2_lookup_l _ _ _ _ _ Hm Hn) as (pr & Hpr & Hlook).
    rewrite HP, HI in Hlook. simpl in Hlook. injection Hlook as <-.
    apply list_elem_of_lookup. by exists n.
Qed.

Lemma base_names_NoDup_lookup (P : list string) (l : string) :
  NoDup (frame_id <$> P) → l ∈ P → base_names P !! frame_id l = Some l.
Proof.
  intros Hnd Hin. apply list_elem_of_split in Hin as (l1 & l2 & ->).
  rewrite fmap_app, fmap_cons in Hnd.
  apply NoDup_app in Hnd as (_ & _ & Hnd).
  apply NoDup_cons in Hnd as [Hnotin _].
  replace (l1 ++ l :: l2) with ((l1 ++ [l]) ++ l2)
    by (by rewrite <- app_assoc).
  rewrite base_names_app_notin.
  - rewrite base_names_snoc. apply lookup_insert_eq.
  - apply Forall_forall. intros q Hq Heq. apply Hnotin.
    rewrite <- Heq. by apply list_elem_of_fmap_2.
Qed.

Lemma base_names_Permutation (P P' : list string) :
  NoDup (frame_id <$> P) → P ≡ₚ P' → base_names P = base_names P'.
Proof.
  intros Hnd Hperm.
  assert (Hnd' : NoDup (frame_id <$> P')) by by rewrite <- Hperm.
  apply map_eq. intros k. apply option_eq. intros l. split; intros Hl.
  - apply base_names_lookup in Hl as [<- Hin].
    apply base_names_NoDup_lookup; [done|]. by rewrite <- Hperm.
  - apply base_names_lookup in Hl as [<- Hin].
    apply base_names_NoDup_lookup; [done|]. by rewrite Hperm.
Qed.

(** X1. The pairs are those of a point-cloud path and an image path that are
    each the last of their list with their Frame Identifier, and have the
    same one. *)
Theorem synchronize_data_pairs (P I : list string)
        (pairs : list (string * string)) (l i : string) :
  synchronize_data P I = Some pairs →
  ((l, i) ∈ pairs
   ↔ l ∈ P ∧ i ∈ I ∧ frame_id i = frame_id l
     ∧ base_names P !! frame_id l = Some l
     ∧ base_names I !! frame_id i = Some i).
Proof.
  intros Hm. rewrite (synchronize_data_elem P I pairs l i Hm). split.
  - intros [HP HI].
    destruct (base_names_lookup _ _ _ HP) as [_ HlP].
    destruct (base_names_lookup _ _ _ HI) as [Hfi HiI].
    rewrite Hfi. done.
  - intros (_ & _ & Hfi & HP & HI). rewrite Hfi in HI. done.
Qed.

Lemma synchronize_data_pairs_witness :
  synchronize_data ["a/1.txt"; "b/1.txt"; "b/2.txt"] ["i/1.png"]
  = Some [("b/1.txt", "i/1.png")]
  ∧ ("b/1.txt", "i/1.png") ∈ [("b/1.txt", "i/1.png")]
  ∧ "b/1.txt" ∈ ["a/1.txt"; "b/1.txt"; "b/2.txt"].
Proof.
  assert (synchronize_data ["a/1.txt"; "b/1.txt"; "b/2.txt"] ["i/1.png"]
          = Some [("b/1.txt", "i/1.png")]) as Hm
    by (vm_compute; reflexivity).
  assert (("b/1.txt", "i/1.png") ∈ [("b/1.txt", "i/1.png")]) as Hin
    by (by left).
  split; [exact Hm|]. split; [exact Hin|].
  exact (proj1 (proj1 (synchronize_data_pairs _ _ _ "b/1.txt" "i/1.png" Hm)
                      Hin)).
Defined.

(** X2. When no two paths of a list have the same Frame Identifier, nothing is
    dropped: a point-cloud path and an image path are paired exactly when
    they have the same Frame Identifier. *)
Theorem synchronize_data_complete (P I : list string)
        (pairs : list (string * string)) (l i : string) :
  NoDup (frame_id <$> P) → NoDup (frame_id <$> I) →
  synchronize_data P I = Some pairs →
  ((l, i) ∈ pairs ↔ l ∈ P ∧ i ∈ I ∧ frame_id i = frame_id l).
Proof.
  intros HndP HndI Hm. rewrite (synchronize_data_elem P I pairs l i Hm).
  split.
  - intros [HP HI].
    destruct (base_names_lookup _ _ _ HP) as [_ HlP].
    destruct (base_names_lookup _ _ _ HI) as [Hfi HiI]. done.
  - intros (HlP & HiI & Hfi). split.
    + by apply base_names_NoDup_lookup.
    + rewrite <- Hfi. by apply base_names_NoDup_lookup.
Qed.

Lemma synchronize_data_complete_witness :
  NoDup (frame_id <$> ["l/2.txt"; "l/1.txt"])
  ∧ NoDup (frame_id <$> ["i/1.png"; "i/3.png"])
  ∧ synchronize_data ["l/2.txt"; "l/1.txt"] ["i/1.png"; "i/3.png"]
    = Some [("l/1.txt", "i/1.png")]
  ∧ (("l/1.txt", "i/1.png") ∈ [("l/1.txt", "i/1.png")]
     ↔ "l/1.txt" ∈ ["l/2.txt"; "l/1.txt"]
       ∧ "i/1.png" ∈ ["i/1.png"; "i/3.png"]
       ∧ frame_id "i/1.png" = frame_id "l/1.txt").
Proof.
  assert (NoDup (frame_id <$> ["l/2.txt"; "l/1.txt"])) as H1
    by compute_done.
  assert (NoDup (frame_id <$> ["i/1.png"; "i/3.png"])) as H2
    by compute_done.
  assert (synchronize_data ["l/2.txt"; "l/1.txt"] ["i/1.png"; "i/3.png"]
          = Some [("l/1.txt", "i/1.png")]) as Hm
    by (vm_compute; reflexivity).
  split; [exact H1|]. split; [exact H2|]. split; [exact Hm|].
  exact (synchronize_data_complete _ _ _ "l/1.txt" "i/1.png" H1 H2 Hm).
Defined.

(** X3. With distinct Frame Identifiers in each list, the result does not
    depend on the order in which the paths are given. *)
Theorem synchronize_data_order_free (P P' I I' : list string) :
  NoDup (frame_id <$> P) → NoDup (frame_id <$> I) →
  P ≡ₚ P' → I ≡ₚ I' →
  synchronize_data P' I' = synchronize_data P I.
Proof.
  intros HndP HndI HP HI. unfold synchronize_data.
  by rewrite (base_names_Permutation P P' HndP HP),
             (base_names_Permutation I I' HndI HI).
Qed.

Lemma synchronize_data_order_free_witness :
  synchronize_data ["l/1.txt"; "l/2.txt"] ["i/2.png"; "i/1.png"]
  = synchronize_data ["l/2.txt"; "l/1.txt"] ["i/1.png"; "i/2.png"].
Proof.
  apply (synchronize_data_order_free
           ["l/2.txt"; "l/1.txt"] ["l/1.txt"; "l/2.txt"]
           ["i/1.png"; "i/2.png"] ["i/2.png"; "i/1.png"]).
  - compute_done.
  - compute_done.
  - apply perm_swap.
  - apply perm_swap.
Defined.

(** X5. The Frame Identifier of a file in a directory. When something other
    than dots comes before the last dot of the name, it is the name up to
    that dot; when only dots do (a name such as [.txt]), it is the whole
    name. *)
Theorem frame_id_located (root stem ext : string) :
  absent "/" stem → absent "/" ext → absent "." ext →
  frame_id (OsPath.join root (stem +:+ String "." ext))
  = if forallb (fun a => Ascii.eqb a ".") (list_ascii_of_string stem)
    then stem +:+ String "." ext
    else stem.
Proof.
  intros Hstem Hext Hdot.
  destruct (forallb (fun a => Ascii.eqb a ".") (list_ascii_of_string stem))
    eqn:Hall.
  - unfold frame_id.
    assert (Hname : absent "/" (stem +:+ String "." ext)).
    { apply absent_app. split; [done|]. by apply absent_cons. }
    rewrite basename_join by done.
    unfold OsPath.splitext, PyStr.rfind.
    rewrite (rfind_from_absent "/") by done.
    rewrite rfind_from_last by done.
    replace (-1 <? 0 + Z.of_nat (String.length stem))%Z with true
      by (symmetry; apply Z.ltb_lt; lia).
    unfold PyStr.slice.
    replace (Z.to_nat (0 + Z.of_nat (String.length stem) - (-1 + 1)))
      with (String.length stem) by lia.
    replace (Z.to_nat (-1 + 1)) with O by lia.
    change (PyStr.drop 0 (stem +:+ String "." ext))
      with (stem +:+ String "." ext).
    by rewrite take_app_length, Hall.
  - apply frame_id_join; try done.
    apply Exists_exists.
    apply not_true_iff_false in Hall.
    destruct (decide (Exists (fun a => a ≠ "."%char)
                             (list_ascii_of_string stem)))
      as [Hex|Hnex]; [by apply Exists_exists in Hex|].
    exfalso. apply Hall, forallb_forall. intros a Ha.
    apply Ascii.eqb_eq. destruct (decide (a = "."%char)) as [->|Hne]; [done|].
    exfalso. apply Hnex, Exists_exists. exists a.
    by rewrite list_elem_of_In.
Qed.

Lemma frame_id_located_witness :
  absent "/" "0000000001" ∧ absent "/" "txt" ∧ absent "." "txt"
  ∧ frame_id (OsPath.join "lidar_temp/velodyne_points/data"
                          ("0000000001" +:+ String "." "txt"))
    = "0000000001".
Proof.
  assert (absent "/" "0000000001") as H1 by (repeat constructor; done).
  assert (absent "/" "txt") as H2 by (repeat constructor; done).
  assert (absent "." "txt") as H3 by (repeat constructor; done).
  split; [exact H1|]. split; [exact H2|]. split; [exact H3|].
  exact (frame_id_located "lidar_temp/velodyne_points/data"
                          "0000000001" "txt" H1 H2 H3).
Defined.

(** ** More on the raw export *)





(** ** The export of what the locators and the synchronizer produce *)

Lemma lower_app (s t : string) :
  PyStr.lower (s +:+ t) = PyStr.lower s +:+ PyStr.lower t.
Proof.
  induction s as [|a s IH]; [done|].
  change (String a s +:+ t) with (String a (s +:+ t)). simpl.
  by rewrite IH.
Qed.

Lemma lower_app_inv (s x y : string) :
  PyStr.lower s = x +:+ y →
  ∃ s1 s2, s = s1 +:+ s2 ∧ PyStr.lower s1 = x ∧ PyStr.lower s2 = y.
Proof.
  revert s. induction x as [|b x IH]; intros s Hs.
  - by exists "", s.
  - destruct s as [|a s]; [done|]. injection Hs as Ha Hs.
    destruct (IH s Hs) as (s1 & s2 & -> & <- & <-).
    exists (String a s1), s2. simpl. by rewrite Ha.
Qed.

Lemma absent_slash_lower (s : string) :
  absent "/" (PyStr.lower s) → absent "/" s.
Proof.
  induction s as [|a s IH]; [done|]. simpl.
  rewrite !absent_cons. intros [Ha Hs]. split; [|by apply IH].
  intros ->. by apply Ha.
Qed.

(** Of two strings neither of which ends with the other, no string ends
    with both. *)
Lemma suffix_clash (p1 p2 s : string) :
  PyStr.endswith p1 p2 = false → PyStr.endswith p2 p1 = false →
  PyStr.endswith s p1 = true → PyStr.endswith s p2 = true → False.
Proof.
  intros H12 H21. induction s as [|a s IH]; intros H1 H2.
  - change (PyStr.endswith "" p1) with (String.eqb "" p1 || false) in H1.
    change (PyStr.endswith "" p2) with (String.eqb "" p2 || false) in H2.
    rewrite orb_false_r in H1, H2.
    apply String.eqb_eq in H1 as <-, H2 as <-. done.
  - change (PyStr.endswith (String a s) p1)
      with (String.eqb (String a s) p1 || PyStr.endswith s p1) in H1.
    change (PyStr.endswith (String a s) p2)
      with (String.eqb (String a s) p2 || PyStr.endswith s p2) in H2.
    apply orb_true_iff in H1 as [<-%String.eqb_eq|H1].
    { change (PyStr.endswith (String a s) p2)
        with (String.eqb (String a s) p2 || PyStr.endswith s p2) in H12.
      congruence. }
    apply orb_true_iff in H2 as [<-%String.eqb_eq|H2].
    { change (PyStr.endswith (String a s) p1)
        with (String.eqb (String a s) p1 || PyStr.endswith s p1) in H21.
      apply orb_false_iff in H21 as [_ H21]. congruence. }
    by apply IH.
Qed.

(** A file name cannot pass both the point-cloud test and the image
    test. *)
Lemma txt_is_no_image (b : string) :
  has_suffix ".txt" b →
  (∃ ext, ext ∈ [".png"; ".jpg"; ".jpeg"] ∧ has_suffix ext (PyStr.lower b)) →
  False.
Proof.
  intros [pre ->] (ext & Hext & Hlow).
  assert (Htxt : PyStr.endswith (PyStr.lower (pre +:+ ".txt")) ".txt" = true).
  { apply endswith_spec. exists (PyStr.lower pre). by rewrite lower_app. }
  apply endswith_spec in Hlow.
  repeat (apply elem_of_cons in Hext as [->|Hext]);
    [..|by apply elem_of_nil in Hext];
    (eapply suffix_clash; [| |exact Htxt|exact Hlow]; reflexivity).
Qed.

Lemma located_velodyne_basename (base_dir : string) (t : dir_tree)
      (p : string) :
  p ∈ find_velodyne_txt_files base_dir t →
  has_suffix ".txt" (OsPath.basename p).
Proof.
  unfold find_velodyne_txt_files.
  rewrite sorted_Permutation, collect_spec.
  intros (root & dirs & files & file & _ & _ & -> & _ & Hfile).
  apply velodyne_file_spec in Hfile as [[pre ->] _].
  apply endswith_basename; [repeat constructor; done|].
  destruct (join_suffix root (pre +:+ ".txt")) as [q ->].
  exists (q +:+ pre). by rewrite string_app_assoc.
Qed.

Lemma located_image_basename (base_dir : string) (t : dir_tree)
      (p : string) :
  p ∈ find_image_files base_dir t →
  ∃ ext, ext ∈ [".png"; ".jpg"; ".jpeg"]
         ∧ has_suffix ext (PyStr.lower (OsPath.basename p)).
Proof.
  unfold find_image_files.
  rewrite sorted_Permutation, collect_spec.
  intros (root & dirs & files & file & _ & _ & -> & _ & Hfile).
  apply image_file_spec in Hfile as [(ext & Hext & [pre Hlow]) _].
  exists ext. split; [done|].
  apply lower_app_inv in Hlow as (s1 & s2 & -> & _ & Hs2).
  assert (Habs : absent "/" s2).
  { apply absent_slash_lower. rewrite Hs2.
    repeat (apply elem_of_cons in Hext as [->|Hext]);
      [..|by apply elem_of_nil in Hext]; repeat constructor; done. }
  assert (Hsuf : has_suffix s2 (OsPath.basename (OsPath.join root (s1 +:+ s2)))).
  { apply endswith_basename; [done|].
    destruct (join_suffix root (s1 +:+ s2)) as [q ->].
    exists (q +:+ s1). by rewrite string_app_assoc. }
  destruct Hsuf as [q ->]. exists (PyStr.lower q).
  by rewrite lower_app, Hs2.
Qed.

Lemma synchronize_data_keys (P I : list string)
      (pairs : list (string * string)) :
  synchronize_data P I = Some pairs →
  NoDup ((fun pr => frame_id pr.1) <$> pairs)
  ∧ Forall (fun pr => frame_id pr.2 = frame_id pr.1) pairs.
Proof.
  unfold synchronize_data. intros Hm. apply mapM_Some in Hm.
  set (ck := sorted (elements (dom (base_names P) ∩ dom (base_names I))))
    in Hm.
  assert (Hck : NoDup ck).
  { unfold ck. rewrite sorted_Permutation. apply NoDup_elements. }
  assert (Hgen : (fun pr => frame_id pr.1) <$> pairs = ck
                 ∧ Forall (fun pr => frame_id pr.2 = frame_id pr.1) pairs).
  { clear Hck. induction Hm as [|k [l i] ks ps Hk _ [IH1 IH2]]; [done|].
    destruct (base_names P !! k) as [l'|] eqn:HP; [|done].
    destruct (base_names I !! k) as [i'|] eqn:HI; [|done].
    simpl in Hk. injection Hk as -> ->.
    apply base_names_lookup in HP as [HP _], HI as [HI _].
    split; [by rewrite fmap_cons, IH1; simpl; rewrite HP|].
    constructor; [simpl; congruence|done]. }
  destruct Hgen as [-> ?]. done.
Qed.

Lemma referenced_Permutation (pairs : list (string * string)) :
  referenced pairs ≡ₚ (pairs.*1) ++ (pairs.*2).
Proof.
  induction pairs as [|[l i] pairs IH]; [done|].
  simpl. rewrite IH. constructor. by rewrite Permutation_middle.
Qed.

Lemma NoDup_basename_of_frame_id (l : list string) :
  NoDup (frame_id <$> l) → NoDup (OsPath.basename <$> l).
Proof.
  intros Hnd.
  apply (NoDup_fmap_1 (fun b => (OsPath.splitext b).1)).
  by rewrite <- list_fmap_compose.
Qed.

(** No two files of pairs made from the locators' results have the same
    base name. *)
Lemma located_pairs_NoDup (base_l base_i : string) (tl ti : dir_tree)
      (pairs : list (string * string)) :
  synchronize_data (find_velodyne_txt_files base_l tl)
                   (find_image_files base_i ti) = Some pairs →
  NoDup (OsPath.basename <$> referenced pairs).
Proof.
  intros Hm. rewrite referenced_Permutation, fmap_app.
  destruct (synchronize_data_keys _ _ _ Hm) as [Hnd Hsame].
  apply NoDup_app. split; [|split].
  - apply NoDup_basename_of_frame_id. by rewrite <- list_fmap_compose.
  - intros b Hl Hi.
    apply list_elem_of_fmap in Hl as (l & -> & Hl).
    apply list_elem_of_fmap in Hl as ([l' i'] & -> & Hl).
    apply list_elem_of_fmap in Hi as (i & Hb & Hi).
    apply list_elem_of_fmap in Hi as ([l'' i''] & -> & Hi).
    simpl in *.
    apply (synchronize_data_elem _ _ _ _ _ Hm) in Hl as [Hl _].
    apply (synchronize_data_elem _ _ _ _ _ Hm) in Hi as [_ Hi].
    apply base_names_lookup in Hl as [_ Hl], Hi as [_ Hi].
    apply located_velodyne_basename in Hl.
    apply located_image_basename in Hi. rewrite <- Hb in Hi.
    by eapply txt_is_no_image.
  - apply NoDup_basename_of_frame_id.
    replace (frame_id <$> pairs.*2)
      with ((fun pr : string * string => frame_id pr.1) <$> pairs); [done|].
    rewrite <- list_fmap_compose.
    apply Forall_fmap_ext_1. eapply Forall_impl; [exact Hsame|].
    intros pr Hpr. simpl. congruence.
Qed.

Lemma entries_names (fs : gmap string string) (files : list string)
      (entries : list (string * string)) :
  Forall2 (entry_of fs) files entries →
  entries.*1 = OsPath.basename <$> files.
Proof.
  induction 1 as [|f [n c] files entries [Hn _] _ IH]; [done|].
  rewrite !fmap_cons. simpl in Hn. by rewrite Hn, IH.
Qed.

(** X7. For the pairs the synchronizer makes of the locators' results, the
    raw export loses nothing: when the files can be read, the archive has
    no two entries with one name, and extracting it gives every file the
    pairs refer to, under its base name, with the same bytes. *)
Theorem located_export_round_trip (fs : gmap string string)
        (base_l base_i : string) (tl ti : dir_tree)
        (pairs : list (string * string)) :
  synchronize_data (find_velodyne_txt_files base_l tl)
                   (find_image_files base_i ti) = Some pairs →
  Forall (fun f => is_Some (fs !! f)) (referenced pairs) →
  ∃ zf : archive,
    export_zip fs pairs = (zf, Ok tt)
    ∧ NoDup (zf.*1)
    ∧ ∀ f, f ∈ referenced pairs →
           extractall zf !! OsPath.basename f = fs !! f.
Proof.
  intros Hm Hall.
  pose proof (located_pairs_NoDup _ _ _ _ _ Hm) as Hnd.
  destruct (entries_exist fs _ Hall) as [entries Hent].
  exists entries. split; [|split].
  - unfold export_zip. by rewrite (export_zip_pairs_Ok fs _ [] entries Hent).
  - by rewrite (entries_names fs _ _ Hent).
  - intros f Hf. apply list_elem_of_split in Hf as (l1 & l2 & Hsplit).
    rewrite Hsplit in Hent, Hnd.
    eapply extractall_last; [exact Hent|].
    rewrite fmap_app, fmap_cons in Hnd.
    apply NoDup_app in Hnd as (_ & _ & Hnd).
    apply NoDup_cons in Hnd as [Hnotin _].
    apply Forall_forall. intros g Hg Heq. apply Hnotin.
    rewrite <- Heq. by apply list_elem_of_fmap_2.
Qed.

Lemma located_export_round_trip_witness :
  synchronize_data (find_velodyne_txt_files "lidar_temp" demo_lidar_tree)
                   (find_image_files "image_temp" demo_image_tree)
  = Some [("lidar_temp/velodyne_points/data/1.txt",
           "image_temp/image_02/data/1.png");
          ("lidar_temp/velodyne_points/data/2.txt",
           "image_temp/image_02/data/2.PNG")]
  ∧ ∃ zf : archive,
      export_zip staged_fs
        [("lidar_temp/velodyne_points/data/1.txt",
          "image_temp/image_02/data/1.png");
         ("lidar_temp/velodyne_points/data/2.txt",
          "image_temp/image_02/data/2.PNG")]
      = (zf, Ok tt)
      ∧ extractall zf !! "2.PNG" = Some "px".
Proof.
  assert (synchronize_data
            (find_velodyne_txt_files "lidar_temp" demo_lidar_tree)
            (find_image_files "image_temp" demo_image_tree)
          = Some [("lidar_temp/velodyne_points/data/1.txt",
                   "image_temp/image_02/data/1.png");
                  ("lidar_temp/velodyne_points/data/2.txt",
                   "image_temp/image_02/data/2.PNG")]) as Hm
    by (vm_compute; reflexivity).
  split; [exact Hm|].
  destruct (located_export_round_trip staged_fs _ _ _ _ _ Hm)
    as (zf & Hrun & _ & Hback).
  - repeat constructor; by eexists.
  - exists zf. split; [exact Hrun|].
    apply (Hback "image_temp/image_02/data/2.PNG").
    simpl. repeat constructor.
Defined.

(** ** More on the frame loader *)

Lemma rows_of_nonempty (lines : list string) :
  Forall (fun vals => length vals ≠ 0) (rows_of lines).
Proof.
  unfold rows_of. apply Forall_forall. intros vals Hin.
  apply list_elem_of_In, filter_In in Hin as [_ Hne].
  apply negb_true_iff in Hne. by apply Nat.eqb_neq in Hne.
Qed.

Lemma concat_singletons {A} (X : list (list A)) :
  Forall (fun row => length row = 1) X → length (concat X) = length X.
Proof.
  induction 1 as [|row X Hrow _ IH]; [done|].
  simpl. rewrite length_app, Hrow, IH. done.
Qed.

(** X9. What a load that succeeds returns: an array whose shape is the number
    of rows and the number of columns of the file with every 1 left out
    (and [(0,)] for a file without rows); so a table comes back only from a
    file of at least two rows of at least two fields, and all its rows have
    the same length. *)
Theorem load_lidar_from_txt_shape {F : Type} (floatconv : string → option F)
        (fs : gmap string string) (file_path content : string)
        (arr : ndarray F) :
  fs !! file_path = Some content →
  load_lidar_from_txt floatconv fs file_path = Ok arr →
  shape arr
  = match data_rows content with
    | [] => [0]
    | vals :: _ =>
        List.filter (fun d => negb (Nat.eqb d 1))
                    [length (data_rows content); length vals]
    end
  ∧ (∀ ncols X, arr = Array2 ncols X →
                Forall (fun row => length row = ncols) X).
Proof.
  intros Hfile. unfold load_lidar_from_txt, loadtxt, data_rows.
  rewrite Hfile, first_vals_rows.
  set (lines := text_lines content).
  pose proof (rows_of_nonempty lines) as Hne.
  remember (length (hd [] (rows_of lines))) as ncols eqn:Hncols.
  destruct (read_rows floatconv ncols lines) as [X|e] eqn:Hread; [|done].
  intros [= <-]. apply read_rows_Ok in Hread.
  assert (Hrect : Forall (fun row => length row = ncols) X).
  { clear Hne Hncols.
    induction Hread as [|vals items rs X' [Hlen Hconv] _ IH];
      constructor; [|done].
    rewrite <- Hlen. symmetry. by eapply Forall2_length. }
  pose proof (Forall2_length _ _ _ Hread) as HlenX.
  destruct (rows_of lines) as [|vals rs] eqn:Hrows.
  - destruct X; [|done]. split; [done|]. intros ? ? [=].
  - simpl in *. inversion Hne as [|? ? Hv _]; subst.
    destruct X as [|r1 [|r2 X']]; [done| |].
    + inversion Hrect as [|? ? Hr1 _]; subst.
      assert (rs = []) as -> by (destruct rs; [done|simpl in HlenX; lia]).
      simpl. destruct r1 as [|x [|y r1]]; simpl in *.
      * lia.
      * rewrite <- Hr1. simpl. split; [done|]. intros ? ? [=].
      * rewrite <- Hr1. simpl. split; [done|]. intros ? ? [=].
    + unfold squeeze.
      destruct (Nat.eqb_spec (length vals) 1) as [H1|H1].
      * split; [|intros ? ? [=]]. unfold shape.
        rewrite concat_singletons
          by (eapply Forall_impl; [exact Hrect|]; simpl; lia).
        rewrite <- HlenX. destruct rs as [|r rs]; [simpl in HlenX; lia|].
        done.
      * split; [|by intros ? ? [= <- <-]]. unfold shape.
        rewrite <- HlenX. destruct rs as [|r rs]; [simpl in HlenX; lia|].
        simpl. by destruct (Nat.eqb_spec (length vals) 1).
Qed.

Lemma load_lidar_from_txt_shape_witness :
  ({["f.txt" := two_point_text]} : gmap string string) !! "f.txt"
  = Some two_point_text
  ∧ load_lidar_from_txt DecimalLit.float {["f.txt" := two_point_text]} "f.txt"
    = Ok (Array2 4 [[1; 2; 3; 1 # 2]; [4; 5; 6; 1 # 4]]%Q)
  ∧ shape (Array2 4 [[1; 2; 3; 1 # 2]; [4; 5; 6; 1 # 4]]%Q) = [2; 4].
Proof.
  assert (({["f.txt" := two_point_text]} : gmap string string) !! "f.txt"
          = Some two_point_text) as Hfile by reflexivity.
  assert (load_lidar_from_txt DecimalLit.float {["f.txt" := two_point_text]}
            "f.txt"
          = Ok (Array2 4 [[1; 2; 3; 1 # 2]; [4; 5; 6; 1 # 4]]%Q)) as Hload
    by (vm_compute; reflexivity).
  split; [exact Hfile|]. split; [exact Hload|].
  destruct (load_lidar_from_txt_shape DecimalLit.float _ _ _ _ Hfile Hload)
    as [Hshape _].
  rewrite Hshape. vm_compute. reflexivity.
Defined.

Lemma load_single_row {F : Type} (floatconv : string → option F)
      (fs : gmap string string) (file_path content : string)
      (vals : list string) :
  fs !! file_path = Some content →
  data_rows content = [vals] →
  Forall (fun v => is_Some (floatconv v)) vals →
  ∃ items,
    Forall2 (fun v x => floatconv v = Some x) vals items
    ∧ load_lidar_from_txt floatconv fs file_path
      = Ok (match items with [x] => Array0 x | _ => Array1 items end).
Proof.
  intros Hfile Hrows Hnum. unfold data_rows in Hrows.
  destruct (Forall_exists_Forall2 (fun v x => floatconv v = Some x) vals)
    as [items Hitems]; [done|].
  exists items. split; [done|].
  unfold load_lidar_from_txt, loadtxt. rewrite Hfile, first_vals_rows, Hrows.
  simpl hd.
  assert (Hread : read_rows floatconv (length vals) (text_lines content)
                  = Ok [items]).
  { apply read_rows_Ok. rewrite Hrows. repeat constructor. done. }
  by rewrite Hread.
Qed.

(** X11. With the format [.h5] the Export button never offers a download:
    on any list of pairs that is not empty it shows one error, with the
    text of the [TypeError] that [pd.HDFStore] raises on the buffer, and
    nothing else. No file is read for it, so the files of the pairs, and
    whether they exist, make no difference. *)
Theorem export_button_h5_error {F : Type} (floatconv : string → option F)
        (fs : gmap string string) (imdecode : string → option image)
        (msg : string) (synced_data : list (string * string)) :
  synced_data ≠ [] →
  export_button floatconv fs imdecode (HDFStore_BytesIO msg) ".h5"
                synced_data
  = [st_error ("Error exporting data: " +:+ msg)]
  ∧ ∀ (fs' : gmap string string) (imdecode' : string → option image),
      export_button floatconv fs' imdecode' (HDFStore_BytesIO msg) ".h5"
                    synced_data
      = export_button floatconv fs imdecode (HDFStore_BytesIO msg) ".h5"
                      synced_data.
Proof.
  intros Hne. unfold export_button.
  rewrite bool_decide_eq_false_2 by done. split; [reflexivity|].
  intros fs' imdecode'. reflexivity.
Qed.

Lemma export_button_h5_error_witness :
  demo_pairs ≠ []
  ∧ export_button DecimalLit.float demo_fs tiny_decode
                  (HDFStore_BytesIO
                     "expected str, bytes or os.PathLike object, not BytesIO")
                  ".h5" demo_pairs
    = [st_error
         "Error exporting data: expected str, bytes or os.PathLike object, not BytesIO"].
Proof.
  assert (demo_pairs ≠ []) as Hne by discriminate.
  split; [exact Hne|].
  exact (proj1 (export_button_h5_error
                  DecimalLit.float demo_fs tiny_decode
                  "expected str, bytes or os.PathLike object, not BytesIO"
                  demo_pairs Hne)).
Defined.

(** ** Where the located files are *)

Lemma join_prefix (root name : string) :
  absent "/" name → has_prefix root (OsPath.join root name).
Proof.
  intros Habs. unfold OsPath.join.
  rewrite startswith_slash_absent by done.
  destruct (String.eqb root "" || PyStr.endswith root "/").
  - by exists name.
  - by exists ("/" +:+ name).
Qed.

Lemma has_prefix_trans (a b c : string) :
  has_prefix a b → has_prefix b c → has_prefix a c.
Proof.
  intros [x ->] [y ->]. exists (x +:+ y). by rewrite string_app_assoc.
Qed.

Lemma string_app_nil_r (s : string) : s +:+ "" = s.
Proof.
  induction s as [|a s IH]; [done|].
  change (String a (s +:+ "") = String a s). by rewrite IH.
Qed.

Lemma walk_under_top (t : dir_tree) :
  ∀ top root dirs files,
    names_ok t → (root, dirs, files) ∈ walk top t →
    has_prefix top root ∧ Forall (absent "/") files.
Proof.
  revert t. fix IH 1. intros [files subdirs] top root dirs files' [Hfiles Hsub].
  simpl. intros Hin. apply elem_of_cons in Hin as [[= -> -> ->]|Hin].
  - split; [exists ""; by rewrite string_app_nil_r|done].
  - clear Hfiles. induction subdirs as [|[name sub] subdirs IHs];
      [by apply elem_of_nil in Hin|].
    destruct Hsub as (Hname & Hok & Hrest). simpl in Hin.
    apply elem_of_app in Hin as [Hin|Hin].
    + destruct (IH sub _ _ _ _ Hok Hin) as [Hpre ?]. split; [|done].
      eapply has_prefix_trans; [|exact Hpre]. by apply join_prefix.
    + by apply IHs.
Qed.

(** X6. When the names in the staging directory have no slash, every path a
    locator returns lies under the directory it was given, and its base
    name is the name of the file. *)
Theorem located_under_base_dir (base_dir : string) (t : dir_tree)
        (p : string) :
  names_ok t →
  p ∈ find_velodyne_txt_files base_dir t ∨ p ∈ find_image_files base_dir t →
  has_prefix base_dir p
  ∧ ∃ root dirs files,
      (root, dirs, files) ∈ walk base_dir t
      ∧ OsPath.basename p ∈ files
      ∧ p = OsPath.join root (OsPath.basename p).
Proof.
  intros Hok Hin.
  assert (∃ root dirs files file,
            (root, dirs, files) ∈ walk base_dir t ∧ file ∈ files
            ∧ p = OsPath.join root file)
    as (root & dirs & files & file & Hw & Hfile & ->).
  { destruct Hin as [Hin|Hin].
    - unfold find_velodyne_txt_files in Hin.
      rewrite sorted_Permutation, collect_spec in Hin.
      destruct Hin as (root & dirs & files & file & ? & ? & ? & _).
      by exists root, dirs, files, file.
    - unfold find_image_files in Hin.
      rewrite sorted_Permutation, collect_spec in Hin.
      destruct Hin as (root & dirs & files & file & ? & ? & ? & _).
      by exists root, dirs, files, file. }
  destruct (walk_under_top t _ _ _ _ Hok Hw) as [Hroot Hnames].
  assert (Habs : absent "/" file)
    by (by eapply Forall_forall in Hnames).
  rewrite basename_join by done. split.
  - eapply has_prefix_trans; [exact Hroot|]. by apply join_prefix.
  - by exists root, dirs, files.
Qed.

Lemma located_under_base_dir_witness :
  names_ok demo_lidar_tree
  ∧ "lidar_temp/velodyne_points/data/1.txt"
    ∈ find_velodyne_txt_files "lidar_temp" demo_lidar_tree
  ∧ has_prefix "lidar_temp" "lidar_temp/velodyne_points/data/1.txt".
Proof.
  assert (names_ok demo_lidar_tree) as Hok
    by (simpl; repeat (split || constructor); done).
  assert ("lidar_temp/velodyne_points/data/1.txt"
          ∈ find_velodyne_txt_files "lidar_temp" demo_lidar_tree) as Hin
    by (vm_compute; repeat constructor).
  split; [exact Hok|]. split; [exact Hin|].
  exact (proj1 (located_under_base_dir "lidar_temp" demo_lidar_tree _ Hok
                                       (or_introl Hin))).
Defined.

(** ** The synchronization step *)

Lemma synchronize_data_length (P I : list string) :
  ∃ pairs, synchronize_data P I = Some pairs
           ∧ length pairs = size (keys P ∩ keys I).
Proof.
  unfold synchronize_data.
  set (ck := sorted (elements (dom (base_names P) ∩ dom (base_names I)))).
  destruct (mapM (fun key => l ← base_names P !! key;
                             i ← base_names I !! key; Some (l, i)) ck)
    as [pairs|] eqn:Hm.
  - exists pairs. split; [done|]. apply mapM_Some, Forall2_length in Hm.
    rewrite <- Hm. unfold ck.
    by rewrite sorted_Permutation, !dom_base_names.
  - exfalso. apply eq_None_not_Some in Hm. apply Hm, mapM_is_Some.
    apply Forall_forall. intros k Hk. unfold ck in Hk.
    rewrite sorted_Permutation, elem_of_elements in Hk.
    apply elem_of_intersection in Hk as [[l Hl]%elem_of_dom [i Hi]%elem_of_dom].
    unfold compose. rewrite Hl, Hi. by eexists.
Qed.

Lemma synchronize_step (lidar_files image_files : list string)
      (uploaded : bool) :
  ∃ synced_data msgs,
    (if negb (bool_decide (lidar_files = []))
        && negb (bool_decide (image_files = []))
     then
       match synchronize_data lidar_files image_files with
       | Some synced_data =>
           inr (synced_data,
                [st_success ("Found "
                             +:+ PyStr.of_nat (length synced_data)
                             +:+ " synchronized pairs.")])
       | None => inl KeyError
       end
     else if uploaded
     then inr ([], [st_warning
                      "Please upload both LiDAR and image data to synchronize."])
     else inr ([], []))
    = (inr (synced_data, msgs)
       : uncaught + (list (string * string) * list notice))
    ∧ (lidar_files ≠ [] → image_files ≠ [] →
       synchronize_data lidar_files image_files = Some synced_data
       ∧ msgs
         = [st_success
              ("Found "
               +:+ PyStr.of_nat (size (keys lidar_files ∩ keys image_files))
               +:+ " synchronized pairs.")])
    ∧ (lidar_files = [] ∨ image_files = [] →
       synced_data = []
       ∧ msgs
         = if uploaded
           then [st_warning
                   "Please upload both LiDAR and image data to synchronize."]
           else []).
Proof.
  destruct (decide (lidar_files = [])) as [Hl|Hl].
  - rewrite (bool_decide_eq_true_2 _ Hl). simpl.
    destruct uploaded; eexists _, _; (split; [reflexivity|]);
      (split; [done|]); intros _; split; reflexivity.
  - rewrite (bool_decide_eq_false_2 _ Hl). simpl.
    destruct (decide (image_files = [])) as [Hi|Hi].
    + rewrite (bool_decide_eq_true_2 _ Hi). simpl.
      destruct uploaded; eexists _, _; (split; [reflexivity|]);
        (split; [done|]); intros _; split; reflexivity.
    + rewrite (bool_decide_eq_false_2 _ Hi). simpl.
      destruct (synchronize_data_length lidar_files image_files)
        as (pairs & Hm & Hlen).
      rewrite Hm. eexists pairs, _. split; [reflexivity|].
      split; [|by intros [?|?]].
      intros _ _. split; [done|]. by rewrite Hlen.
Qed.

(** X13. The step after the uploads. An upload that cannot be extracted
    ends the script: the exception of [unzip_to_folder] ([BadZipFile] for
    a file that is no archive) is not caught, for the point-cloud upload
    first, and no message of the step is shown. When every upload is
    extracted, the step does not end the script. When both locators find
    files, it shows the success message with the number of Frame
    Identifiers the two sets of files share, which can be 0. When a locator
    finds nothing, nothing is synchronized; the warning that asks for both
    uploads is then shown as soon as one archive was uploaded, also when
    both were; without any upload nothing is shown. *)
Theorem after_upload_spec
        (ZipFile_extractall : string → string → string → result dir_tree)
        (uploaded_lidar_zip uploaded_image_zip : option string) :
  (∀ uploaded_file e,
     uploaded_lidar_zip = Some uploaded_file →
     unzip_to_folder ZipFile_extractall uploaded_file "lidar_temp" = Raise e →
     after_upload ZipFile_extractall uploaded_lidar_zip uploaded_image_zip
     = inl (Unzip e))
  ∧ (∀ staged_lidar uploaded_file e,
       staged_as ZipFile_extractall uploaded_lidar_zip "lidar_temp"
                 staged_lidar →
       uploaded_image_zip = Some uploaded_file →
       unzip_to_folder ZipFile_extractall uploaded_file "image_temp"
       = Raise e →
       after_upload ZipFile_extractall uploaded_lidar_zip uploaded_image_zip
       = inl (Unzip e))
  ∧ (∀ staged_lidar staged_image,
       staged_as ZipFile_extractall uploaded_lidar_zip "lidar_temp"
                 staged_lidar →
       staged_as ZipFile_extractall uploaded_image_zip "image_temp"
                 staged_image →
       ∃ synced_data msgs,
         after_upload ZipFile_extractall uploaded_lidar_zip uploaded_image_zip
         = inr (synced_data, msgs)
         ∧ (from_option (find_velodyne_txt_files "lidar_temp") []
                        staged_lidar ≠ [] →
            from_option (find_image_files "image_temp") []
                        staged_image ≠ [] →
            synchronize_data
              (from_option (find_velodyne_txt_files "lidar_temp") []
                           staged_lidar)
              (from_option (find_image_files "image_temp") [] staged_image)
            = Some synced_data
            ∧ msgs
              = [st_success
                   ("Found "
                    +:+ PyStr.of_nat
                          (size (keys (from_option
                                         (find_velodyne_txt_files
                                            "lidar_temp") []
                                         staged_lidar)
                                 ∩ keys (from_option
                                           (find_image_files "image_temp")
                                           [] staged_image)))
                    +:+ " synchronized pairs.")])
         ∧ (from_option (find_velodyne_txt_files "lidar_temp") []
                        staged_lidar = []
            ∨ from_option (find_image_files "image_temp") []
                          staged_image = [] →
            synced_data = []
            ∧ msgs
              = if bool_decide (uploaded_lidar_zip = None
                                ∧ uploaded_image_zip = None)
                then []
                else [st_warning
                        "Please upload both LiDAR and image data to synchronize."])).
Proof.
  split; [|split].
  - intros uploaded_file e -> He. unfold after_upload. cbv zeta.
    by rewrite He.
  - intros staged_lidar uploaded_file e Hl -> He. unfold after_upload.
    cbv zeta.
    destruct uploaded_lidar_zip as [ul|], staged_lidar as [tl|];
      simpl in Hl; try done.
    + by rewrite Hl, He.
    + by rewrite He.
  - intros staged_lidar staged_image Hl Hi. unfold after_upload. cbv zeta.
    destruct uploaded_lidar_zip as [ul|], staged_lidar as [tl|];
      simpl in Hl; try done;
      destruct uploaded_image_zip as [ui|], staged_image as [ti|];
      simpl in Hi; try done;
      rewrite ?Hl, ?Hi.
    + destruct (synchronize_step (find_velodyne_txt_files "lidar_temp" tl)
                                 (find_image_files "image_temp" ti) true)
        as (synced_data & msgs & Hrun & Hboth & Hnone).
      exists synced_data, msgs. split; [exact Hrun|]. split; [exact Hboth|].
      rewrite bool_decide_eq_false_2 by (by intros [? _]). exact Hnone.
    + destruct (synchronize_step (find_velodyne_txt_files "lidar_temp" tl)
                                 [] true)
        as (synced_data & msgs & Hrun & Hboth & Hnone).
      exists synced_data, msgs. split; [exact Hrun|]. split; [exact Hboth|].
      rewrite bool_decide_eq_false_2 by (by intros [? _]). exact Hnone.
    + destruct (synchronize_step [] (find_image_files "image_temp" ti) true)
        as (synced_data & msgs & Hrun & Hboth & Hnone).
      exists synced_data, msgs. split; [exact Hrun|]. split; [exact Hboth|].
      rewrite bool_decide_eq_false_2 by (by intros [_ ?]). exact Hnone.
    + destruct (synchronize_step [] [] false)
        as (synced_data & msgs & Hrun & Hboth & Hnone).
      exists synced_data, msgs. split; [exact Hrun|]. split; [exact Hboth|].
      rewrite bool_decide_eq_true_2 by done. exact Hnone.
Qed.

Lemma after_upload_spec_witness :
  after_upload demo_extractall (Some "not an archive") (Some "image archive")
  = inl (Unzip (BadZipFile "File is not a zip file"))
  ∧ after_upload demo_extractall (Some "lidar archive") (Some "not an archive")
    = inl (Unzip (BadZipFile "File is not a zip file"))
  ∧ after_upload demo_extractall (Some "lidar archive") (Some "image archive")
    = inr ([("lidar_temp/velodyne_points/data/1.txt",
             "image_temp/image_02/data/1.png");
            ("lidar_temp/velodyne_points/data/2.txt",
             "image_temp/image_02/data/2.PNG")],
           [st_success "Found 2 synchronized pairs."]).
Proof.
  split; [|split].
  - exact (proj1 (after_upload_spec demo_extractall (Some "not an archive")
                                    (Some "image archive"))
                 "not an archive" _ eq_refl eq_refl).
  - exact (proj1 (proj2 (after_upload_spec demo_extractall
                                           (Some "lidar archive")
                                           (Some "not an archive")))
                 (Some demo_lidar_tree) "not an archive" _
                 eq_refl eq_refl eq_refl).
  - destruct (proj2 (proj2 (after_upload_spec demo_extractall
                                              (Some "lidar archive")
                                              (Some "image archive")))
                    (Some demo_lidar_tree) (Some demo_image_tree)
                    eq_refl eq_refl)
      as (synced_data & msgs & Hrun & Hboth & _).
    rewrite Hrun.
    destruct Hboth as [Hsync Hmsgs].
    + by vm_compute.
    + by vm_compute.
    + vm_compute in Hsync. injection Hsync as <-.
      rewrite Hmsgs. vm_compute. reflexivity.
Defined.

Example after_upload_no_common_key :
  after_upload (fun _ content _ =>
                  if String.eqb content "lidar archive"
                  then Ok demo_lidar_tree
                  else Ok (Dir ["data.zip"]
                               [("image_02",
                                 Dir [] [("data", Dir ["7.png"] [])])]))
               (Some "lidar archive") (Some "image archive")
  = inr ([], [st_success "Found 0 synchronized pairs."]).
Proof. vm_compute. reflexivity. Qed.

Example after_upload_archive_without_frames :
  after_upload (fun _ content _ =>
                  if String.eqb content "lidar archive"
                  then Ok (Dir ["data.zip"; "readme.txt"] [])
                  else Ok demo_image_tree)
               (Some "lidar archive") (Some "image archive")
  = inr ([], [st_warning
                "Please upload both LiDAR and image data to synchronize."]).
Proof. vm_compute. reflexivity. Qed.

(** ** The view of a pair *)

Lemma load_table_rect {F : Type} (floatconv : string → option F)
      (fs : gmap string string) (file_path : string) (ncols : nat)
      (X : list (list F)) :
  load_lidar_from_txt floatconv fs file_path = Ok (Array2 ncols X) →
  Forall (fun row => length row = ncols) X.
Proof.
  unfold load_lidar_from_txt, loadtxt.
  destruct (fs !! file_path) as [content|]; [|done].
  remember (length (first_vals (text_lines content))) as n eqn:Hn.
  destruct (read_rows floatconv n (text_lines content)) as [Y|e] eqn:Hread;
    [|done].
  apply read_rows_Ok in Hread.
  assert (Hrect : Forall (fun row => length row = n) Y).
  { clear Hn. induction Hread as [|vals items rs Y' [Hlen Hconv] _ IH];
      constructor; [|done].
    rewrite <- Hlen. symmetry. by eapply Forall2_length. }
  unfold squeeze. intros Heq.
  destruct Y as [|r1 [|r2 Y']]; [done| |].
  - by destruct r1 as [|x [|y r1]].
  - destruct (Nat.eqb n 1); [done|]. by injection Heq as <- <-.
Qed.

Lemma get_column_rect {A} (k ncols : nat) (X : list (list A)) :
  Forall (fun row => length row = ncols) X → (k < ncols)%nat →
  ∃ col, View.get_column k (Array2 ncols X) = inr col
         ∧ Forall2 (fun row x => row !! k = Some x) X col.
Proof.
  intros Hrect Hk. unfold View.get_column.
  destruct (Nat.ltb_spec k ncols) as [_|?]; [|lia].
  destruct (mapM (fun row : list A => row !! k) X) as [col|] eqn:Hm.
  - exists col. split; [done|]. by apply mapM_Some in Hm.
  - exfalso. apply eq_None_not_Some in Hm. apply Hm, mapM_is_Some.
    eapply Forall_impl; [exact Hrect|]. intros row Hrow. simpl in Hrow.
    unfold compose. apply lookup_lt_is_Some. lia.
Qed.

(** X14. The Visualize button on a pair whose point-cloud file loads to a table
    of four columns. It shows the name of the file, the first five rows of
    the table (all of them when there are fewer), and the scatter of the
    first three columns over all the rows. When the image decodes, its name
    and the image with every pixel reversed to red, green, blue follow; when
    it does not, an error follows, and what was shown of the point cloud
    stays. *)
Theorem visualize_button_spec {F : Type} (floatconv : string → option F)
        (fs : gmap string string) (imdecode : string → option image)
        (selected_pair : string * string) (X : list (list F)) :
  load_lidar_from_txt floatconv fs selected_pair.1 = Ok (Array2 4 X) →
  ∃ xs ys zs,
    Forall2 (fun row x => row !! 0%nat = Some x) X xs
    ∧ Forall2 (fun row y => row !! 1%nat = Some y) X ys
    ∧ Forall2 (fun row z => row !! 2%nat = Some z) X zs
    ∧ View.visualize_button floatconv fs imdecode selected_pair
      = [View.st_write ("LiDAR File: " +:+ OsPath.basename selected_pair.1);
         View.st_write "First 5 LiDAR points:";
         View.st_dataframe (Frame ["x"; "y"; "z"; "intensity"] (take 5 X));
         View.st_pyplot xs ys zs]
        ++ match imread fs imdecode selected_pair.2 with
           | Some img =>
               [View.st_write
                  ("Image File: " +:+ OsPath.basename selected_pair.2);
                View.st_image (height img) (width img)
                              (@rev N <$> chunk3 (pixels img))
                              "Synchronized Image"]
           | None =>
               [View.st_error
                  "Error visualizing synchronized data: 'NoneType' object is not subscriptable"]
           end.
Proof.
  intros Hload.
  pose proof (load_table_rect _ _ _ _ _ Hload) as Hrect.
  destruct (get_column_rect 0 4 X Hrect) as (xs & Hxs & HXs); [lia|].
  destruct (get_column_rect 1 4 X Hrect) as (ys & Hys & HYs); [lia|].
  destruct (get_column_rect 2 4 X Hrect) as (zs & Hzs & HZs); [lia|].
  exists xs, ys, zs. split; [done|]. split; [done|]. split; [done|].
  unfold View.visualize_button, View.plot_lidar_3d.
  unfold mbind, View.V_mbind, View.call, View.index, View.show.
  rewrite Hload. cbn [View.first_rows DataFrame length Nat.eqb].
  rewrite Hxs, Hys, Hzs.
  destruct (imread fs imdecode selected_pair.2) as [img|]; reflexivity.
Qed.

Lemma visualize_button_spec_witness :
  load_lidar_from_txt DecimalLit.float staged_fs
    ("lidar_temp/velodyne_points/data/1.txt", "image_temp/missing.png").1
  = Ok (Array2 4 [[1; 2; 3; 1 # 2]; [4; 5; 6; 1 # 4]]%Q)
  ∧ View.visualize_button DecimalLit.float staged_fs tiny_decode
      ("lidar_temp/velodyne_points/data/1.txt", "image_temp/missing.png")
    = [View.st_write "LiDAR File: 1.txt";
       View.st_write "First 5 LiDAR points:";
       View.st_dataframe
         (Frame ["x"; "y"; "z"; "intensity"]
                [[1; 2; 3; 1 # 2]; [4; 5; 6; 1 # 4]]%Q);
       View.st_pyplot [1; 4]%Q [2; 5]%Q [3; 6]%Q;
       View.st_error
         "Error visualizing synchronized data: 'NoneType' object is not subscriptable"].
Proof.
  assert (load_lidar_from_txt DecimalLit.float staged_fs
            ("lidar_temp/velodyne_points/data/1.txt",
             "image_temp/missing.png").1
          = Ok (Array2 4 [[1; 2; 3; 1 # 2]; [4; 5; 6; 1 # 4]]%Q)) as Hload
    by (vm_compute; reflexivity).
  split; [exact Hload|].
  destruct (visualize_button_spec DecimalLit.float staged_fs tiny_decode
              _ _ Hload) as (xs & ys & zs & Hx & Hy & Hz & ->).
  inversion Hx as [|? x1 ? xs1 Hx1 Hx']; subst.
  inversion Hx' as [|? x2 ? xs2 Hx2 Hx'']; subst.
  inversion Hx''; subst.
  inversion Hy as [|? y1 ? ys1 Hy1 Hy']; subst.
  inversion Hy' as [|? y2 ? ys2 Hy2 Hy'']; subst.
  inversion Hy''; subst.
  inversion Hz as [|? z1 ? zs1 Hz1 Hz']; subst.
  inversion Hz' as [|? z2 ? zs2 Hz2 Hz'']; subst.
  inversion Hz''; subst.
  simpl in *.
  injection Hx1 as <-. injection Hx2 as <-.
  injection Hy1 as <-. injection Hy2 as <-.
  injection Hz1 as <-. injection Hz2 as <-.
  reflexivity.
Defined.

(** X15. A point-cloud file of a single row cannot be viewed: the name of the
    file is shown, then an error, and neither the table nor the scatter. *)
Theorem visualize_button_single_point {F : Type}
        (floatconv : string → option F) (fs : gmap string string)
        (imdecode : string → option image) (selected_pair : string * string)
        (content : string) (vals : list string) :
  fs !! selected_pair.1 = Some content →
  data_rows content = [vals] →
  Forall (fun v => is_Some (floatconv v)) vals →
  ∃ msg,
    View.visualize_button floatconv fs imdecode selected_pair
    = [View.st_write ("LiDAR File: " +:+ OsPath.basename selected_pair.1);
       View.st_error ("Error visualizing synchronized data: " +:+ msg)].
Proof.
  intros Hfile Hrows Hnum.
  destruct (load_single_row floatconv fs _ _ _ Hfile Hrows Hnum)
    as (items & _ & Hload).
  unfold View.visualize_button.
  unfold mbind, View.V_mbind, View.call, View.index, View.show.
  rewrite Hload.
  destruct items as [|x [|y items]]; simpl; by eexists.
Qed.

Lemma visualize_button_single_point_witness :
  staged_fs !! ("lidar_temp/velodyne_points/data/2.txt",
                "image_temp/image_02/data/2.PNG").1
  = Some one_line_text
  ∧ data_rows one_line_text = [["1.0"; "2.0"; "3.0"; "0.5"]]
  ∧ Forall (fun v => is_Some (DecimalLit.float v))
           ["1.0"; "2.0"; "3.0"; "0.5"]
  ∧ ∃ msg,
      View.visualize_button DecimalLit.float staged_fs tiny_decode
        ("lidar_temp/velodyne_points/data/2.txt",
         "image_temp/image_02/data/2.PNG")
      = [View.st_write "LiDAR File: 2.txt";
         View.st_error ("Error visualizing synchronized data: " +:+ msg)].
Proof.
  assert (staged_fs !! ("lidar_temp/velodyne_points/data/2.txt",
                        "image_temp/image_02/data/2.PNG").1
          = Some one_line_text) as Hfile by reflexivity.
  assert (data_rows one_line_text = [["1.0"; "2.0"; "3.0"; "0.5"]]) as Hrows
    by (vm_compute; reflexivity).
  assert (Forall (fun v => is_Some (DecimalLit.float v))
                 ["1.0"; "2.0"; "3.0"; "0.5"]) as Hnum
    by (repeat constructor; eexists; vm_compute; reflexivity).
  split; [exact Hfile|]. split; [exact Hrows|]. split; [exact Hnum|].
  destruct (visualize_button_single_point DecimalLit.float staged_fs
              tiny_decode _ _ _ Hfile Hrows Hnum) as [msg Hmsg].
  exists msg. exact Hmsg.
Defined.

(** ** The image table *)

Lemma chunk3_concat {A} (n : nat) (xs : list A) :
  length xs = (n * 3)%nat →
  concat (chunk3 xs) = xs ∧ Forall (fun row => length row = 3) (chunk3 xs).
Proof.
  revert xs. induction n as [|n IH]; intros xs Hlen.
  - by destruct xs.
  - destruct xs as [|a [|b [|c rest]]]; simpl in Hlen; try lia.
    destruct (IH rest) as [Hcat Hrows]; [lia|].
    simpl. rewrite Hcat. split; [done|]. by constructor.
Qed.

(** X12. The rows [reshape(-1, 3)] makes of a decoded image lose nothing: every
    row has three values, and the rows laid end to end are the buffer of
    the image, in its order. *)
Theorem reshape_rows3_flatten (img : image) :
  ∃ rows,
    reshape_rows3 (Some img) = Ok (Array2 3 rows)
    ∧ concat rows = pixels img
    ∧ Forall (fun row => length row = 3) rows
    ∧ length rows = (height img * width img)%nat.
Proof.
  exists (chunk3 (pixels img)). split; [apply reshape_rows3_Some|].
  destruct (chunk3_concat (height img * width img) (pixels img))
    as [? ?]; [apply pixels_len|].
  split; [done|]. split; [done|].
  apply chunk3_length, pixels_len.
Qed.

(** ** Lines, comments and line ends *)

Section LayoutFacts.

Context {F : Type} (floatconv : string → option F).


End LayoutFacts.



(** ** The two sensors in the synchronizer *)

Lemma mapM_option_fmap {A B C} (f : A → option B) (g : A → option C)
      (h : B → C) (l : list A) :
  (∀ x, g x = h <$> f x) →
  mapM g l = (fmap (M := list) h) <$> mapM f l.
Proof.
  intros Hg. induction l as [|x l IH]; [done|].
  simpl. rewrite IH, Hg. destruct (f x); [|done]. simpl.
  by destruct (mapM f l).
Qed.

(** X4. Giving the synchronizer the image paths first and the point-cloud
    paths second gives the same pairs in the same order, each turned
    round. *)
Theorem synchronize_data_swap (P I : list string) :
  synchronize_data I P
  = (fmap (M := list) (fun pr : string * string => (pr.2, pr.1)))
      <$> synchronize_data P I.
Proof.
  unfold synchronize_data.
  rewrite (comm_L (∩) (dom (base_names I)) (dom (base_names P))).
  apply mapM_option_fmap. intros key.
  destruct (base_names I !! key), (base_names P !! key); done.
Qed.
